(** * Verification of [server/verify.go] (go-tpm-tools)

    A shallow embedding of the attestation verifier: the hash-algorithm
    policy, the trust check on the attestation key, the quote selector and
    the top-level [VerifyAttestation] procedure, followed by the properties
    the specification states about them.

    Conventions.
    - A Go [error] is [option error]: [None] is [nil].
    - A Go pointer that may be [nil] (to [pb.Attestation], [tpmpb.Quote],
      [tpmpb.PCRs], [pb.MachineState]) is an [option]; the generated
      protobuf getters are nil-safe and are modelled as such.
    - [tpm2.Algorithm] is a [uint16]; the conversion from the protobuf
      enum [HashAlgo] (an [int32]) keeps the low 16 bits.
    - The functions of other packages that [VerifyAttestation] calls
      ([tpm2.DecodePublic], [Public.Key], [internal.GetSigningHashAlg],
      [internal.VerifyQuote], [ParseAndReplayEventLog]) are the fields of
      the class [Capabilities]; every call is recorded in a trace, so that
      "which quotes were examined" is a statement about the run. *)

From Stdlib Require Import ZArith List String Bool Lia.
From Stdlib.Strings Require Import Byte.
Import ListNotations.
Local Open Scope string_scope.
Local Open Scope list_scope.
Local Open Scope Z_scope.

(* ------------------------------------------------------------------ *)
(** ** Data model *)

(** [tpm2.Algorithm]: a 16-bit identifier of the TPM algorithm registry. *)
Definition Algorithm := Z.

Definition AlgSHA1   : Algorithm := 0x0004.
Definition AlgSHA256 : Algorithm := 0x000B.
Definition AlgSHA384 : Algorithm := 0x000C.
Definition AlgSHA512 : Algorithm := 0x000D.

(** [tpm2.Algorithm(h)] for [h] of type [HashAlgo] (int32): truncation to
    16 bits. *)
Definition toAlgorithm (h : Z) : Algorithm := h mod 65536.

(** The hash algorithms we support, in their preferred order of use. *)
Definition supportedHashAlgs : list Algorithm := [AlgSHA512; AlgSHA384; AlgSHA256].

(** Go errors.  [Errorf] is [fmt.Errorf] with a constant message,
    [ErrorfAlg] is [fmt.Errorf("...%v", hash)] and [Wrapf] is
    [fmt.Errorf("...: %w", err)]. *)
Inductive error : Type :=
| Errorf (msg : string)
| ErrorfAlg (msg : string) (hash : Algorithm)
| Wrapf (msg : string) (inner : error).

(** [crypto.PublicKey] is an empty interface; what matters to the verifier
    is the dynamic type of the value.  RSA and ECDSA keys are non-nil
    pointers to the key structs; [OtherPublicKey] stands for every other
    dynamic type, the nil interface included. *)
Inductive PublicKey : Type :=
| RSAPublicKey (N : Z) (E : Z)                    (* pointer to rsa.PublicKey *)
| ECDSAPublicKey (curve : string) (X Y : Z)       (* pointer to ecdsa.PublicKey *)
| OtherPublicKey (type : string) (raw : list byte). (* any other dynamic type *)

(** [tpmpb.PCRs], [tpmpb.Quote] and [pb.Attestation]. *)
Record PCRs : Type := {
  Hash : Z;
  Pcrs : list (Z * list byte)
}.

Record Quote : Type := {
  QuoteInfo : list byte;
  RawSig : list byte;
  QPcrs : option PCRs
}.

Record Attestation : Type := {
  AkPub : list byte;
  Quotes : list (option Quote);
  EventLog : list byte
}.

(** VerifyOpts allows for customizing the functionality of
    VerifyAttestation. *)
Record VerifyOpts : Type := {
  Nonce : list byte;
  TrustedAKs : list PublicKey
}.

(** The nil-safe getters generated for the protobuf messages. *)
Definition GetAkPub (a : option Attestation) : list byte :=
  match a with Some a => AkPub a | None => [] end.

Definition GetQuotes (a : option Attestation) : list (option Quote) :=
  match a with Some a => Quotes a | None => [] end.

Definition GetEventLog (a : option Attestation) : list byte :=
  match a with Some a => EventLog a | None => [] end.

Definition GetPcrs (q : option Quote) : option PCRs :=
  match q with Some q => QPcrs q | None => None end.

Definition GetHash (p : option PCRs) : Z :=
  match p with Some p => Hash p | None => 0 end.

(** The algorithm of a quote's PCR bank, as both [supportedQuotes] and the
    loop of [VerifyAttestation] compute it. *)
Definition pcrBankAlg (quote : option Quote) : Algorithm :=
  toAlgorithm (GetHash (GetPcrs quote)).

(* ------------------------------------------------------------------ *)
(** ** Hash-algorithm policy *)

Fixpoint hashAlgIn (hash : Algorithm) (algs : list Algorithm) : bool :=
  match algs with
  | [] => false
  | alg :: rest => if hash =? alg then true else hashAlgIn hash rest
  end.

Definition checkHashAlgSupported (hash : Algorithm) (opts : VerifyOpts) : option error :=
  if hashAlgIn hash supportedHashAlgs then None
  else Some (ErrorfAlg "unsupported hash algorithm: " hash).

(* ------------------------------------------------------------------ *)
(** ** Trust check on the attestation key *)

(** The [Equal] methods of [rsa.PublicKey] and [ecdsa.PublicKey] (pointer
    receivers): a key of another dynamic type is never equal. *)
Definition rsaEqual (N E : Z) (x : PublicKey) : bool :=
  match x with
  | RSAPublicKey N' E' => (N =? N') && (E =? E')
  | _ => false
  end.

Definition ecdsaEqual (curve : string) (X Y : Z) (x : PublicKey) : bool :=
  match x with
  | ECDSAPublicKey curve' X' Y' => (X =? X') && (Y =? Y') && String.eqb curve curve'
  | _ => false
  end.

Definition pubKeysEqual (k1 k2 : PublicKey) : bool :=
  match k1 with
  | RSAPublicKey N E => rsaEqual N E k2
  | ECDSAPublicKey curve X Y => ecdsaEqual curve X Y k2
  | OtherPublicKey _ _ => false
  end.

(** The dynamic type of a key, as the type switch of [pubKeysEqual] sees it. *)
Definition isRSA (k : PublicKey) : bool :=
  match k with RSAPublicKey _ _ => true | _ => false end.

Definition isECDSA (k : PublicKey) : bool :=
  match k with ECDSAPublicKey _ _ _ => true | _ => false end.

Fixpoint anyTrusted (ak : PublicKey) (trustedAKs : list PublicKey) : bool :=
  match trustedAKs with
  | [] => false
  | trusted :: rest => if pubKeysEqual ak trusted then true else anyTrusted ak rest
  end.

(** Checks if the provided AK public key can be trusted. *)
Definition checkAkTrusted (ak : PublicKey) (opts : VerifyOpts) : option error :=
  if (Z.of_nat (List.length (TrustedAKs opts)) =? 0) then
    Some (Errorf "no mechanism for AK verification provided")
  else if anyTrusted ak (TrustedAKs opts) then None
  else Some (Errorf "AK public key is not trusted").

(* ------------------------------------------------------------------ *)
(** ** Quote selector *)

(** The inner loop of [supportedQuotes]: append the first quote of
    [quotes] whose bank algorithm is [alg], then [break]. *)
Fixpoint appendFirstMatch (alg : Algorithm) (quotes out : list (option Quote))
  : list (option Quote) :=
  match quotes with
  | [] => out
  | quote :: rest =>
      if pcrBankAlg quote =? alg then out ++ [quote]
      else appendFirstMatch alg rest out
  end.

(** Retrieve the supported quotes in order of hash preference. *)
Definition supportedQuotes (quotes : list (option Quote)) : list (option Quote) :=
  fold_left (fun out alg => appendFirstMatch alg quotes out) supportedHashAlgs [].

(** The selector as the specification words it: for each algorithm of the
    policy, in order, the first quote of that algorithm if there is one. *)
Definition selectByPreference (quotes : list (option Quote)) : list (option Quote) :=
  flat_map
    (fun alg =>
       match find (fun quote => pcrBankAlg quote =? alg) quotes with
       | Some quote => [quote]
       | None => []
       end)
    [AlgSHA512; AlgSHA384; AlgSHA256].

(* ------------------------------------------------------------------ *)
(** ** The capabilities consumed by the orchestrator *)

(** A fallible call whose value is only used when the error is [nil]. *)
Inductive result (A : Type) : Type :=
| Ok (a : A)
| Err (err : error).
Arguments Ok {A} a.
Arguments Err {A} err.

(** The functions of other packages.  [Public] is [tpm2.Public], the
    decoded public area; [MachineState] is [pb.MachineState].
    [ParseAndReplayEventLog] keeps Go's pair of a state pointer and an
    error, because [VerifyAttestation] hands that pointer back as it is. *)
Class Capabilities : Type := {
  Public : Type;
  MachineState : Type;
  DecodePublic : list byte -> result Public;
  Key : Public -> result PublicKey;
  GetSigningHashAlg : Public -> result Algorithm;
  VerifyQuote : option Quote -> PublicKey -> list byte -> option error;
  ParseAndReplayEventLog : list byte -> option PCRs -> option MachineState * option error
}.

(** One entry of the trace per call of a capability. *)
Inductive Call : Type :=
| CallDecodePublic (akPub : list byte)
| CallKey
| CallGetSigningHashAlg
| CallVerifyQuote (quote : option Quote) (nonce : list byte)
| CallParseAndReplayEventLog (eventLog : list byte) (pcrs : option PCRs).

(** Computations that record the capability calls they make. *)
Definition Traced (A : Type) : Type := A * list Call.

Definition ret {A : Type} (a : A) : Traced A := (a, []).

Definition bind {A B : Type} (m : Traced A) (f : A -> Traced B) : Traced B :=
  let (a, t1) := m in
  let (b, t2) := f a in
  (b, t1 ++ t2).

Definition call {A : Type} (c : Call) (a : A) : Traced A := (a, [c]).

Notation "x <- m ;; k" := (bind m (fun x => k))
  (at level 61, m at next level, right associativity).

Definition value {A : Type} (m : Traced A) : A := fst m.
Definition trace {A : Type} (m : Traced A) : list Call := snd m.

Section Orchestrator.
Context `{Capabilities}.

(** What [VerifyAttestation] returns: a state pointer and an error. *)
Definition Outcome : Type := option MachineState * option error.

(** The loop of [VerifyAttestation] over the selected quotes: [continue]
    is the recursive call with the new [lastErr], [return] ends the loop;
    the empty list is the code after the loop. *)
Fixpoint verifyQuotes (attestation : option Attestation) (opts : VerifyOpts)
  (akPubKey : PublicKey) (quotes : list (option Quote)) (lastErr : option error)
  : Traced Outcome :=
  match quotes with
  | [] =>
      match lastErr with
      | Some err => ret (None, Some err)
      | None => ret (None, Some (Errorf "attestation does not contain a supported quote"))
      end
  | quote :: rest =>
      (* Verify the Quote *)
      err <- call (CallVerifyQuote quote (Nonce opts))
                  (VerifyQuote quote akPubKey (Nonce opts)) ;;
      match err with
      | Some err =>
          verifyQuotes attestation opts akPubKey rest
            (Some (Wrapf "failed to verify quote: " err))
      | None =>
          (* Parse the event log and replay the events against the provided PCRs *)
          let pcrs := GetPcrs quote in
          r <- call (CallParseAndReplayEventLog (GetEventLog attestation) pcrs)
                    (ParseAndReplayEventLog (GetEventLog attestation) pcrs) ;;
          match r with
          | (_, Some err) =>
              verifyQuotes attestation opts akPubKey rest
                (Some (Wrapf "failed to validate the event log: " err))
          | (state, None) =>
              (* Verify the PCR hash algorithm *)
              let pcrHashAlg := toAlgorithm (GetHash pcrs) in
              match checkHashAlgSupported pcrHashAlg opts with
              | Some err => ret (None, Some (Wrapf "when verifying PCRs: " err))
              | None => ret (state, None)
              end
          end
      end
  end.

Definition VerifyAttestation (attestation : option Attestation) (opts : VerifyOpts)
  : Traced Outcome :=
  (* Verify the AK *)
  r <- call (CallDecodePublic (GetAkPub attestation))
            (DecodePublic (GetAkPub attestation)) ;;
  match r with
  | Err err => ret (None, Some (Wrapf "failed to decode AK public area: " err))
  | Ok akPubArea =>
  r <- call CallKey (Key akPubArea) ;;
  match r with
  | Err err => ret (None, Some (Wrapf "failed to get AK public key: " err))
  | Ok akPubKey =>
  match checkAkTrusted akPubKey opts with
  | Some err => ret (None, Some err)
  | None =>
  (* Verify the signing hash algorithm *)
  r <- call CallGetSigningHashAlg (GetSigningHashAlg akPubArea) ;;
  match r with
  | Err err => ret (None, Some (Wrapf "bad AK public area: " err))
  | Ok signHashAlg =>
  match checkHashAlgSupported signHashAlg opts with
  | Some err => ret (None, Some (Wrapf "in AK public area: " err))
  | None =>
  (* Attempt to replay the log against our PCRs in order of hash preference *)
  verifyQuotes attestation opts akPubKey (supportedQuotes (GetQuotes attestation)) None
  end end end end end.

End Orchestrator.

(** *** Vocabulary for the statements about the loop *)

Section Candidates.
Context `{Capabilities}.

Variable attestation : option Attestation.
Variable opts : VerifyOpts.

(** The attestation key passes the checks that precede the loop, and
    decodes to [akPubKey]. *)
Definition PassesAkChecks (akPubKey : PublicKey) : Prop :=
  exists akPubArea signHashAlg,
    DecodePublic (GetAkPub attestation) = Ok akPubArea
    /\ Key akPubArea = Ok akPubKey
    /\ checkAkTrusted akPubKey opts = None
    /\ GetSigningHashAlg akPubArea = Ok signHashAlg
    /\ checkHashAlgSupported signHashAlg opts = None.

(** A candidate fails softly, and [e] is the error the loop records: the
    Single-Quote Verifier rejects it, or it passes and the replay fails. *)
Inductive SoftFails (akPubKey : PublicKey) (quote : option Quote) : error -> Prop :=
| SoftFails_quote err :
    VerifyQuote quote akPubKey (Nonce opts) = Some err ->
    SoftFails akPubKey quote (Wrapf "failed to verify quote: " err)
| SoftFails_replay state err :
    VerifyQuote quote akPubKey (Nonce opts) = None ->
    ParseAndReplayEventLog (GetEventLog attestation) (GetPcrs quote) = (state, Some err) ->
    SoftFails akPubKey quote (Wrapf "failed to validate the event log: " err).

(** A candidate passes the Single-Quote Verifier and the replay succeeds,
    returning [state]. *)
Definition Verifies (akPubKey : PublicKey) (quote : option Quote)
  (state : option MachineState) : Prop :=
  VerifyQuote quote akPubKey (Nonce opts) = None
  /\ ParseAndReplayEventLog (GetEventLog attestation) (GetPcrs quote) = (state, None).

(** [Recorded key pre lastErr lastErr']: every candidate of [pre] fails
    softly, and [lastErr'] is the value of [lastErr] after them. *)
Inductive Recorded (akPubKey : PublicKey)
  : list (option Quote) -> option error -> option error -> Prop :=
| Recorded_nil lastErr : Recorded akPubKey [] lastErr lastErr
| Recorded_cons quote e pre lastErr lastErr' :
    SoftFails akPubKey quote e ->
    Recorded akPubKey pre (Some e) lastErr' ->
    Recorded akPubKey (quote :: pre) lastErr lastErr'.

Definition AllFailSoftly (akPubKey : PublicKey) (quotes : list (option Quote)) : Prop :=
  Forall (fun quote => exists e, SoftFails akPubKey quote e) quotes.

End Candidates.

(* ------------------------------------------------------------------ *)
(** ** Reading a trace *)

(** The quotes handed to the Single-Quote Verifier, in call order. *)
Definition verified (t : list Call) : list (option Quote) :=
  flat_map (fun c => match c with CallVerifyQuote quote _ => [quote] | _ => [] end) t.

(** The PCR banks handed to the log replay, in call order. *)
Definition replayed (t : list Call) : list (option PCRs) :=
  flat_map (fun c => match c with CallParseAndReplayEventLog _ pcrs => [pcrs] | _ => [] end) t.

(** Whether a run examined any quote at all. *)
Definition examinesQuotes (t : list Call) : bool :=
  existsb (fun c => match c with
                    | CallVerifyQuote _ _ | CallParseAndReplayEventLog _ _ => true
                    | _ => false
                    end) t.

(** The two errors of [checkAkTrusted]: the kind "untrusted key". *)
Definition isUntrustedKey (e : error) : bool :=
  match e with
  | Errorf msg =>
      String.eqb msg "no mechanism for AK verification provided"
      || String.eqb msg "AK public key is not trusted"
  | _ => false
  end.

(** The error of the signing-algorithm check of [VerifyAttestation]. *)
Definition isUnsupportedSigningAlg (e : error) : bool :=
  match e with
  | Wrapf msg (ErrorfAlg _ _) => String.eqb msg "in AK public area: "
  | _ => false
  end.

(** The error of the PCR-bank algorithm check inside the loop. *)
Definition isUnsupportedPcrAlg (e : error) : bool :=
  match e with
  | Wrapf msg (ErrorfAlg _ _) => String.eqb msg "when verifying PCRs: "
  | _ => false
  end.

(** The error returned when the loop had nothing to try. *)
Definition errNoSupportedQuote : error :=
  Errorf "attestation does not contain a supported quote".

(* ------------------------------------------------------------------ *)
(** ** A small instance of the capabilities, to run the verifier on *)

Module Mock.

(** A toy public area: an RSA modulus and the hash of the signing scheme. *)
Record Area : Type := { areaN : Z; areaSigHash : Algorithm }.

Definition byteZ (b : byte) : Z := Z.of_N (Byte.to_N b).

Fixpoint bytesEqual (a b : list byte) : bool :=
  match a, b with
  | [], [] => true
  | x :: a', y :: b' => Byte.eqb x y && bytesEqual a' b'
  | _, _ => false
  end.

(** Three bytes: the tag 01, the modulus, the signing hash.  Anything else
    (the empty string included) does not decode. *)
Definition decodePublic (b : list byte) : result Area :=
  match b with
  | [x01; n; h] => Ok {| areaN := byteZ n; areaSigHash := byteZ h |}
  | _ => Err (Errorf "decoding public area")
  end.

Definition key (a : Area) : result PublicKey := Ok (RSAPublicKey (areaN a) 65537).

Definition getSigningHashAlg (a : Area) : result Algorithm := Ok (areaSigHash a).

(** A quote verifies when its signature byte names the key and its
    quote-info carries the nonce. *)
Definition verifyQuote (quote : option Quote) (k : PublicKey) (nonce : list byte)
  : option error :=
  match quote, k with
  | Some q, RSAPublicKey n _ =>
      match RawSig q with
      | [s] =>
          if byteZ s =? n then
            if bytesEqual (QuoteInfo q) nonce then None
            else Some (Errorf "quote nonce mismatch")
          else Some (Errorf "signature verification failed")
      | _ => Some (Errorf "signature verification failed")
      end
  | _, _ => Some (Errorf "signature verification failed")
  end.

(** The log replays when PCR 0 of the bank holds the log itself; the
    machine state is then the log. *)
Definition parseAndReplayEventLog (log : list byte) (pcrs : option PCRs)
  : option (list byte) * option error :=
  match pcrs with
  | Some p =>
      match Pcrs p with
      | (0, d) :: _ =>
          if bytesEqual d log then (Some log, None)
          else (None, Some (Errorf "PCR replay mismatch"))
      | _ => (None, Some (Errorf "PCR replay mismatch"))
      end
  | None => (None, Some (Errorf "no PCRs"))
  end.

Definition caps : Capabilities := {|
  Public := Area;
  MachineState := list byte;
  DecodePublic := decodePublic;
  Key := key;
  GetSigningHashAlg := getSigningHashAlg;
  VerifyQuote := verifyQuote;
  ParseAndReplayEventLog := parseAndReplayEventLog
|}.

(** Sample data: a key with modulus 7 that signs with SHA-256 and one that
    signs with SHA-1, a nonce, a log, and quotes over a given bank. *)
Definition akSHA256 : list byte := [x01; x07; x0b].
Definition akSHA1 : list byte := [x01; x07; x04].
Definition theKey : PublicKey := RSAPublicKey 7 65537.
Definition otherKey : PublicKey := RSAPublicKey 9 65537.
Definition nonce : list byte := [x2a].
Definition log : list byte := [xaa; xbb].

Definition goodQuote (hash : Z) : option Quote :=
  Some {| QuoteInfo := nonce; RawSig := [x07];
          QPcrs := Some {| Hash := hash; Pcrs := [(0, log)] |} |}.

Definition badSigQuote (hash : Z) : option Quote :=
  Some {| QuoteInfo := nonce; RawSig := [x00];
          QPcrs := Some {| Hash := hash; Pcrs := [(0, log)] |} |}.

Definition badLogQuote (hash : Z) : option Quote :=
  Some {| QuoteInfo := nonce; RawSig := [x07];
          QPcrs := Some {| Hash := hash; Pcrs := [(0, [x00])] |} |}.

Definition attestation (ak : list byte) (quotes : list (option Quote)) : option Attestation :=
  Some {| AkPub := ak; Quotes := quotes; EventLog := log |}.

Definition opts (trusted : list PublicKey) : VerifyOpts :=
  {| Nonce := nonce; TrustedAKs := trusted |}.

End Mock.


(* ================================================================== *)
(** * Properties *)

(* ------------------------------------------------------------------ *)
(** ** Hash-algorithm policy *)

Lemma hashAlgIn_In (hash : Algorithm) (algs : list Algorithm) :
  hashAlgIn hash algs = true <-> In hash algs.
Proof.
  induction algs as [|alg rest IH]; simpl.
  - split; [discriminate | tauto].
  - destruct (Z.eqb_spec hash alg) as [->|Hne].
    + split; auto.
    + rewrite IH. split; [auto | intros [E|?]; [congruence | assumption]].
Qed.

Lemma checkHashAlgSupported_None (hash : Algorithm) (opts : VerifyOpts) :
  checkHashAlgSupported hash opts = None <-> In hash supportedHashAlgs.
Proof.
  unfold checkHashAlgSupported. rewrite <- hashAlgIn_In.
  destruct (hashAlgIn hash supportedHashAlgs); split; congruence.
Qed.

Lemma checkHashAlgSupported_Some (hash : Algorithm) (opts : VerifyOpts) (e : error) :
  checkHashAlgSupported hash opts = Some e ->
  e = ErrorfAlg "unsupported hash algorithm: " hash /\ ~ In hash supportedHashAlgs.
Proof.
  intros Hc. split.
  - unfold checkHashAlgSupported in Hc.
    destruct (hashAlgIn hash supportedHashAlgs); congruence.
  - rewrite <- (checkHashAlgSupported_None hash opts). congruence.
Qed.

(** C9. [checkHashAlgSupported] returns [nil] exactly for SHA-512, SHA-384
    and SHA-256, and its result is the same whatever the options are. *)
Theorem checkHashAlgSupported_policy (hash : Algorithm) :
  (forall opts,
      checkHashAlgSupported hash opts = None <->
      hash = AlgSHA512 \/ hash = AlgSHA384 \/ hash = AlgSHA256)
  /\ (forall opts opts',
         checkHashAlgSupported hash opts = checkHashAlgSupported hash opts').
Proof.
  split.
  - intros opts. rewrite checkHashAlgSupported_None.
    unfold supportedHashAlgs; simpl. intuition congruence.
  - reflexivity.
Qed.

(* ------------------------------------------------------------------ *)
(** ** Trust check *)

Lemma anyTrusted_false (ak : PublicKey) (trustedAKs : list PublicKey) :
  anyTrusted ak trustedAKs = false <->
  forall trusted, In trusted trustedAKs -> pubKeysEqual ak trusted = false.
Proof.
  induction trustedAKs as [|t rest IH]; simpl.
  - split; [intros _ ? [] | reflexivity].
  - destruct (pubKeysEqual ak t) eqn:Heq.
    + split; [discriminate | intros Hall].
      rewrite <- Heq. apply Hall. now left.
    + rewrite IH. split.
      * intros Hall x [<-|Hin]; auto.
      * intros Hall x Hin. apply Hall. now right.
Qed.

Lemma checkAkTrusted_empty (ak : PublicKey) (opts : VerifyOpts) :
  TrustedAKs opts = [] ->
  checkAkTrusted ak opts = Some (Errorf "no mechanism for AK verification provided").
Proof.
  intros Hnil. unfold checkAkTrusted. rewrite Hnil. reflexivity.
Qed.

Lemma checkAkTrusted_untrusted (ak : PublicKey) (opts : VerifyOpts) :
  (forall trusted, In trusted (TrustedAKs opts) -> pubKeysEqual ak trusted = false) ->
  exists e, checkAkTrusted ak opts = Some e /\ isUntrustedKey e = true.
Proof.
  intros Hall. apply anyTrusted_false in Hall.
  unfold checkAkTrusted. rewrite Hall.
  destruct (Z.of_nat (List.length (TrustedAKs opts)) =? 0); eexists; split; reflexivity.
Qed.

Lemma checkAkTrusted_Some (ak : PublicKey) (opts : VerifyOpts) (e : error) :
  checkAkTrusted ak opts = Some e -> isUntrustedKey e = true.
Proof.
  unfold checkAkTrusted.
  destruct (Z.of_nat (List.length (TrustedAKs opts)) =? 0).
  - intros [= <-]. reflexivity.
  - destruct (anyTrusted ak (TrustedAKs opts)); [discriminate|].
    intros [= <-]. reflexivity.
Qed.

Lemma checkAkTrusted_None (ak : PublicKey) (opts : VerifyOpts) :
  checkAkTrusted ak opts = None ->
  exists trusted, In trusted (TrustedAKs opts) /\ pubKeysEqual ak trusted = true.
Proof.
  unfold checkAkTrusted.
  destruct (Z.of_nat (List.length (TrustedAKs opts)) =? 0); [discriminate|].
  destruct (anyTrusted ak (TrustedAKs opts)) eqn:Hany; [intros _|discriminate].
  induction (TrustedAKs opts) as [|t rest IH]; simpl in Hany; [discriminate|].
  destruct (pubKeysEqual ak t) eqn:Heq.
  - exists t. split; [now left | assumption].
  - destruct (IH Hany) as (x & Hin & Hx). exists x. split; [now right | assumption].
Qed.

(** C10. A key whose dynamic type is neither an RSA nor an ECDSA public key
    is equal to no key, so [checkAkTrusted] rejects it for every set of
    trusted keys, empty or not. *)
Theorem unknown_key_family_never_trusted (ak : PublicKey) :
  isRSA ak = false -> isECDSA ak = false ->
  (forall k2, pubKeysEqual ak k2 = false)
  /\ (forall opts, exists e, checkAkTrusted ak opts = Some e /\ isUntrustedKey e = true).
Proof.
  intros Hrsa Hec.
  assert (Heq : forall k2, pubKeysEqual ak k2 = false).
  { intros k2. destruct ak; simpl in *; congruence. }
  split; [exact Heq|].
  intros opts. apply checkAkTrusted_untrusted. intros; apply Heq.
Qed.

Lemma unknown_key_family_never_trusted_witness :
  let ed := OtherPublicKey "ed25519.PublicKey" [x01; x02] in
  (forall k2, pubKeysEqual ed k2 = false)
  /\ (forall opts, exists e, checkAkTrusted ed opts = Some e /\ isUntrustedKey e = true).
Proof.
  apply unknown_key_family_never_trusted; reflexivity.
Defined.

(* ------------------------------------------------------------------ *)
(** ** Quote selector *)

Lemma appendFirstMatch_find (alg : Algorithm) (quotes out : list (option Quote)) :
  appendFirstMatch alg quotes out =
  out ++ match find (fun quote => pcrBankAlg quote =? alg) quotes with
         | Some quote => [quote]
         | None => []
         end.
Proof.
  induction quotes as [|q rest IH]; simpl.
  - now rewrite app_nil_r.
  - destruct (pcrBankAlg q =? alg); [reflexivity | exact IH].
Qed.

Lemma supportedQuotes_selectByPreference (quotes : list (option Quote)) :
  supportedQuotes quotes = selectByPreference quotes.
Proof.
  unfold supportedQuotes, selectByPreference, supportedHashAlgs. simpl.
  rewrite !appendFirstMatch_find, app_nil_r. simpl. now rewrite <- app_assoc.
Qed.

Lemma first_match_alg (alg : Algorithm) (quotes : list (option Quote)) :
  map pcrBankAlg
      match find (fun quote => pcrBankAlg quote =? alg) quotes with
      | Some quote => [quote]
      | None => []
      end
  = if existsb (fun quote => pcrBankAlg quote =? alg) quotes then [alg] else [].
Proof.
  induction quotes as [|q rest IH]; simpl; [reflexivity|].
  destruct (pcrBankAlg q =? alg) eqn:Heq; [|exact IH].
  apply Z.eqb_eq in Heq. exact (f_equal (fun a => [a]) Heq).
Qed.

(** The algorithms of the selected quotes are the policy list, restricted
    to the algorithms some input quote has. *)
Lemma supportedQuotes_algs (quotes : list (option Quote)) :
  map pcrBankAlg (supportedQuotes quotes) =
  filter (fun alg => existsb (fun quote => pcrBankAlg quote =? alg) quotes)
         supportedHashAlgs.
Proof.
  rewrite supportedQuotes_selectByPreference.
  unfold selectByPreference, supportedHashAlgs. simpl.
  rewrite !map_app, !first_match_alg. simpl.
  repeat match goal with |- context [existsb ?f ?l] => destruct (existsb f l) end;
    reflexivity.
Qed.

Lemma supportedQuotes_In (quotes : list (option Quote)) (quote : option Quote) :
  In quote (supportedQuotes quotes) ->
  In quote quotes /\ In (pcrBankAlg quote) supportedHashAlgs.
Proof.
  rewrite supportedQuotes_selectByPreference. unfold selectByPreference.
  rewrite in_flat_map. intros (alg & Halg & Hin).
  destruct (find _ quotes) as [q|] eqn:Hfind; [|contradiction].
  destruct Hin as [->|[]].
  apply find_some in Hfind. destruct Hfind as [Hq Halgq]. simpl in Halgq.
  apply Z.eqb_eq in Halgq. split; [assumption|]. now rewrite Halgq.
Qed.

Lemma supportedHashAlgs_NoDup : NoDup supportedHashAlgs.
Proof.
  unfold supportedHashAlgs, AlgSHA512, AlgSHA384, AlgSHA256.
  repeat constructor; simpl; intuition discriminate.
Qed.

(** C3. [supportedQuotes] is the selector of the specification: for each
    of SHA-512, SHA-384, SHA-256 in this order, the first input quote of
    that algorithm, if any.  A quote outside the policy never appears, no
    two selected quotes share an algorithm, and equal inputs give equal
    outputs. *)
Theorem supportedQuotes_spec (quotes : list (option Quote)) :
  supportedQuotes quotes = selectByPreference quotes
  /\ (forall quote, In quote (supportedQuotes quotes) ->
                    In quote quotes /\ In (pcrBankAlg quote) supportedHashAlgs)
  /\ (forall quote, ~ In (pcrBankAlg quote) supportedHashAlgs ->
                    ~ In quote (supportedQuotes quotes))
  /\ NoDup (map pcrBankAlg (supportedQuotes quotes))
  /\ (forall quotes', quotes' = quotes -> supportedQuotes quotes' = supportedQuotes quotes).
Proof.
  split; [apply supportedQuotes_selectByPreference|].
  split; [apply supportedQuotes_In|].
  split.
  - intros quote Hout Hin. apply Hout. now apply supportedQuotes_In in Hin.
  - split.
    + rewrite supportedQuotes_algs. apply NoDup_filter, supportedHashAlgs_NoDup.
    + now intros quotes' ->.
Qed.

(* ------------------------------------------------------------------ *)
(** ** Attestation orchestrator *)

Lemma bind_call {A B : Type} (c : Call) (a : A) (f : A -> Traced B) :
  bind (call c a) f = (value (f a), c :: trace (f a)).
Proof. unfold bind, call, value, trace. now destruct (f a). Qed.

Lemma examinesQuotes_false (t : list Call) :
  examinesQuotes t = false -> verified t = [] /\ replayed t = [].
Proof.
  induction t as [|c t IH]; simpl; [auto|].
  destruct c; simpl; try discriminate; exact IH.
Qed.

Section OrchestratorProperties.
Context `{Capabilities}.

Variable attestation : option Attestation.
Variable opts : VerifyOpts.

Lemma Recorded_exists akPubKey pre :
  AllFailSoftly attestation opts akPubKey pre -> forall lastErr, exists lastErr', Recorded attestation opts akPubKey pre lastErr lastErr'.
Proof.
  induction 1 as [|q pre [e He] _ IH]; intros lastErr.
  - exists lastErr. constructor.
  - destruct (IH (Some e)) as [l' Hl']. exists l'. econstructor; eassumption.
Qed.

Lemma Recorded_snoc akPubKey pre quote e lastErr lastErr' :
  Recorded attestation opts akPubKey pre lastErr lastErr' ->
  SoftFails attestation opts akPubKey quote e ->
  Recorded attestation opts akPubKey (pre ++ [quote]) lastErr (Some e).
Proof.
  intros Hrec Hsoft. induction Hrec; simpl.
  - econstructor; [eassumption | constructor].
  - econstructor; eassumption.
Qed.

(** *** One iteration of the loop *)

Lemma verifyQuotes_soft akPubKey quote e rest lastErr :
  SoftFails attestation opts akPubKey quote e ->
  value (verifyQuotes attestation opts akPubKey (quote :: rest) lastErr)
  = value (verifyQuotes attestation opts akPubKey rest (Some e))
  /\ verified (trace (verifyQuotes attestation opts akPubKey (quote :: rest) lastErr))
     = quote :: verified (trace (verifyQuotes attestation opts akPubKey rest (Some e))).
Proof.
  intros Hsoft. cbn [verifyQuotes]. rewrite bind_call.
  destruct Hsoft as [err Hq | state err Hq Hr]; rewrite Hq.
  - split; reflexivity.
  - rewrite bind_call, Hr. split; reflexivity.
Qed.

Lemma verifyQuotes_pass akPubKey quote state rest lastErr :
  Verifies attestation opts akPubKey quote state ->
  checkHashAlgSupported (pcrBankAlg quote) opts = None ->
  verifyQuotes attestation opts akPubKey (quote :: rest) lastErr
  = ((state, None),
     [CallVerifyQuote quote (Nonce opts);
      CallParseAndReplayEventLog (GetEventLog attestation) (GetPcrs quote)]).
Proof.
  intros [Hq Hr] Halg. cbn [verifyQuotes].
  rewrite bind_call, Hq, bind_call, Hr.
  fold (pcrBankAlg quote). rewrite Halg. reflexivity.
Qed.

Lemma verifyQuotes_fatal akPubKey quote state err rest lastErr :
  Verifies attestation opts akPubKey quote state ->
  checkHashAlgSupported (pcrBankAlg quote) opts = Some err ->
  verifyQuotes attestation opts akPubKey (quote :: rest) lastErr
  = ((None, Some (Wrapf "when verifying PCRs: " err)),
     [CallVerifyQuote quote (Nonce opts);
      CallParseAndReplayEventLog (GetEventLog attestation) (GetPcrs quote)]).
Proof.
  intros [Hq Hr] Halg. cbn [verifyQuotes].
  rewrite bind_call, Hq, bind_call, Hr.
  fold (pcrBankAlg quote). rewrite Halg. reflexivity.
Qed.

(** *** Several iterations *)

(** Candidates that fail softly are tried in order and passed over. *)
Lemma verifyQuotes_skip akPubKey pre rest lastErr lastErr' :
  Recorded attestation opts akPubKey pre lastErr lastErr' ->
  value (verifyQuotes attestation opts akPubKey (pre ++ rest) lastErr)
  = value (verifyQuotes attestation opts akPubKey rest lastErr')
  /\ verified (trace (verifyQuotes attestation opts akPubKey (pre ++ rest) lastErr))
     = pre ++ verified (trace (verifyQuotes attestation opts akPubKey rest lastErr')).
Proof.
  induction 1 as [|q e pre lastErr lastErr' Hsoft _ IH]; [split; reflexivity|].
  rewrite <- app_comm_cons.
  destruct (verifyQuotes_soft akPubKey q e (pre ++ rest) lastErr Hsoft) as [Hv Ht].
  destruct IH as [IHv IHt].
  rewrite Hv, Ht, IHv, IHt. split; reflexivity.
Qed.

(** The loop stops at a candidate whose bank algorithm the policy rejects
    after it verified: the candidates behind it are not tried. *)
Lemma verifyQuotes_fatal_stops akPubKey pre quote post state err lastErr lastErr' :
  Recorded attestation opts akPubKey pre lastErr lastErr' ->
  Verifies attestation opts akPubKey quote state ->
  checkHashAlgSupported (pcrBankAlg quote) opts = Some err ->
  value (verifyQuotes attestation opts akPubKey (pre ++ quote :: post) lastErr)
  = (None, Some (Wrapf "when verifying PCRs: " err))
  /\ verified (trace (verifyQuotes attestation opts akPubKey (pre ++ quote :: post) lastErr))
     = pre ++ [quote].
Proof.
  intros Hrec Hver Halg.
  destruct (verifyQuotes_skip akPubKey pre (quote :: post) lastErr lastErr' Hrec) as [Hv Ht].
  rewrite Hv, Ht, (verifyQuotes_fatal akPubKey quote state err post lastErr' Hver Halg).
  split; reflexivity.
Qed.

(** The quotes the loop hands to the verifier are an initial segment of
    its candidate list. *)
Lemma verifyQuotes_verified_prefix akPubKey quotes :
  forall lastErr, exists post,
    quotes = verified (trace (verifyQuotes attestation opts akPubKey quotes lastErr)) ++ post.
Proof.
  induction quotes as [|q rest IH]; intros lastErr.
  - exists []. cbn. now destruct lastErr.
  - cbn [verifyQuotes]. rewrite bind_call.
    destruct (VerifyQuote q akPubKey (Nonce opts)) as [err|] eqn:Hq.
    + destruct (IH (Some (Wrapf "failed to verify quote: " err))) as [post Hpost].
      exists post. exact (f_equal (cons q) Hpost).
    + rewrite bind_call.
      destruct (ParseAndReplayEventLog _ _) as [state [err|]] eqn:Hr.
      * destruct (IH (Some (Wrapf "failed to validate the event log: " err))) as [post Hpost].
        exists post. exact (f_equal (cons q) Hpost).
      * exists rest. destruct (checkHashAlgSupported _ opts); reflexivity.
Qed.

(** *** The checks before the loop *)

Lemma VerifyAttestation_unfold :
  VerifyAttestation attestation opts =
  let cd := CallDecodePublic (GetAkPub attestation) in
  match DecodePublic (GetAkPub attestation) with
  | Err err => ((None, Some (Wrapf "failed to decode AK public area: " err)), [cd])
  | Ok akPubArea =>
      match Key akPubArea with
      | Err err => ((None, Some (Wrapf "failed to get AK public key: " err)), [cd; CallKey])
      | Ok akPubKey =>
          match checkAkTrusted akPubKey opts with
          | Some err => ((None, Some err), [cd; CallKey])
          | None =>
              match GetSigningHashAlg akPubArea with
              | Err err =>
                  ((None, Some (Wrapf "bad AK public area: " err)),
                   [cd; CallKey; CallGetSigningHashAlg])
              | Ok signHashAlg =>
                  match checkHashAlgSupported signHashAlg opts with
                  | Some err =>
                      ((None, Some (Wrapf "in AK public area: " err)),
                       [cd; CallKey; CallGetSigningHashAlg])
                  | None =>
                      let r := verifyQuotes attestation opts akPubKey
                                 (supportedQuotes (GetQuotes attestation)) None in
                      (value r, cd :: CallKey :: CallGetSigningHashAlg :: trace r)
                  end
              end
          end
      end
  end.
Proof.
  unfold VerifyAttestation. rewrite bind_call.
  destruct (DecodePublic (GetAkPub attestation)) as [akPubArea|err]; [|reflexivity].
  rewrite bind_call.
  destruct (Key akPubArea) as [akPubKey|err]; [|reflexivity].
  destruct (checkAkTrusted akPubKey opts); [reflexivity|].
  rewrite bind_call.
  destruct (GetSigningHashAlg akPubArea) as [signHashAlg|err]; [|reflexivity].
  destruct (checkHashAlgSupported signHashAlg opts); reflexivity.
Qed.

Lemma VerifyAttestation_loop akPubKey :
  PassesAkChecks attestation opts akPubKey ->
  let r := verifyQuotes attestation opts akPubKey (supportedQuotes (GetQuotes attestation)) None in
  value (VerifyAttestation attestation opts) = value r
  /\ verified (trace (VerifyAttestation attestation opts)) = verified (trace r).
Proof.
  intros (area & alg & Hd & Hk & Ht & Hs & Ha).
  rewrite VerifyAttestation_unfold. cbv zeta. rewrite Hd, Hk, Ht, Hs, Ha.
  split; reflexivity.
Qed.

End OrchestratorProperties.

Section OrchestratorClaims.
Context `{Capabilities}.

Implicit Types (attestation : option Attestation) (opts : VerifyOpts).

(** *** Shape of the outcome *)

Lemma verifyQuotes_no_state_on_failure attestation opts akPubKey quotes :
  forall lastErr state e,
    value (verifyQuotes attestation opts akPubKey quotes lastErr) = (state, Some e) ->
    state = None.
Proof.
  induction quotes as [|q rest IH]; intros lastErr state e.
  - cbn. destruct lastErr; cbn; congruence.
  - cbn [verifyQuotes]. rewrite bind_call.
    destruct (VerifyQuote q akPubKey (Nonce opts)) as [err|]; [apply IH|].
    rewrite bind_call.
    destruct (ParseAndReplayEventLog _ _) as [st [err|]]; [apply IH|].
    destruct (checkHashAlgSupported _ opts); cbn; congruence.
Qed.

(** No execution path yields a state together with an error; this needs
    nothing from the capabilities. *)
Lemma VerifyAttestation_no_state_on_failure attestation opts state e :
  value (VerifyAttestation attestation opts) = (state, Some e) -> state = None.
Proof.
  rewrite VerifyAttestation_unfold. cbv zeta.
  destruct (DecodePublic _) as [area|]; [|cbn; congruence].
  destruct (Key area) as [key|]; [|cbn; congruence].
  destruct (checkAkTrusted key opts); [cbn; congruence|].
  destruct (GetSigningHashAlg area) as [alg|]; [|cbn; congruence].
  destruct (checkHashAlgSupported alg opts); [cbn; congruence|].
  apply verifyQuotes_no_state_on_failure.
Qed.

Lemma verifyQuotes_outcome attestation opts akPubKey quotes :
  (forall log pcrs state,
      ParseAndReplayEventLog log pcrs = (state, None) -> state <> None) ->
  forall lastErr,
    (exists s, value (verifyQuotes attestation opts akPubKey quotes lastErr) = (Some s, None))
    \/ (exists e, value (verifyQuotes attestation opts akPubKey quotes lastErr) = (None, Some e)).
Proof.
  intros Hreplay. induction quotes as [|q rest IH]; intros lastErr.
  - right. cbn. destruct lastErr; eexists; reflexivity.
  - cbn [verifyQuotes]. rewrite bind_call.
    destruct (VerifyQuote q akPubKey (Nonce opts)) as [err|]; [apply IH|].
    rewrite bind_call.
    destruct (ParseAndReplayEventLog _ _) as [st [err|]] eqn:Hr; [apply IH|].
    destruct (checkHashAlgSupported _ opts).
    + right. eexists; reflexivity.
    + left. destruct st as [s|]; [exists s; reflexivity|].
      now apply Hreplay in Hr.
Qed.

(** C8. Provided the log replay keeps Go's convention (a [nil] error comes
    with a non-nil state), [VerifyAttestation] returns either a non-nil
    state with a [nil] error or a [nil] state with a non-nil error. *)
Theorem VerifyAttestation_outcome attestation opts :
  (forall log pcrs state,
      ParseAndReplayEventLog log pcrs = (state, None) -> state <> None) ->
  (exists s, value (VerifyAttestation attestation opts) = (Some s, None))
  \/ (exists e, value (VerifyAttestation attestation opts) = (None, Some e)).
Proof.
  intros Hreplay. rewrite VerifyAttestation_unfold. cbv zeta.
  destruct (DecodePublic _) as [area|]; [|right; eexists; reflexivity].
  destruct (Key area) as [key|]; [|right; eexists; reflexivity].
  destruct (checkAkTrusted key opts); [right; eexists; reflexivity|].
  destruct (GetSigningHashAlg area) as [alg|]; [|right; eexists; reflexivity].
  destruct (checkHashAlgSupported alg opts); [right; eexists; reflexivity|].
  apply (verifyQuotes_outcome attestation opts key _ Hreplay None).
Qed.

(** *** Failures before the loop *)

(** C4. When the decoded AK public key equals none of [opts.TrustedAKs],
    [VerifyAttestation] fails with an untrusted-key error, whatever the
    quotes are, and no quote is handed to the verifier or to the replay. *)
Theorem untrusted_ak_rejected attestation opts akPubArea akPubKey :
  DecodePublic (GetAkPub attestation) = Ok akPubArea ->
  Key akPubArea = Ok akPubKey ->
  (forall trusted, In trusted (TrustedAKs opts) -> pubKeysEqual akPubKey trusted = false) ->
  exists e,
    value (VerifyAttestation attestation opts) = (None, Some e)
    /\ isUntrustedKey e = true
    /\ examinesQuotes (trace (VerifyAttestation attestation opts)) = false.
Proof.
  intros Hd Hk Hall.
  destruct (checkAkTrusted_untrusted akPubKey opts Hall) as (e & He & Hkind).
  exists e. rewrite VerifyAttestation_unfold. cbv zeta. rewrite Hd, Hk, He.
  split; [reflexivity|]. split; [exact Hkind | reflexivity].
Qed.

(** C5, as the code has it. When the AK decodes, is trusted, and its
    signing-hash algorithm is outside the policy list, [VerifyAttestation]
    fails with the unsupported-signing-algorithm error and no quote is
    examined, whatever the quotes are. *)
Theorem unsupported_signing_alg_rejected attestation opts akPubArea akPubKey signHashAlg :
  DecodePublic (GetAkPub attestation) = Ok akPubArea ->
  Key akPubArea = Ok akPubKey ->
  checkAkTrusted akPubKey opts = None ->
  GetSigningHashAlg akPubArea = Ok signHashAlg ->
  ~ In signHashAlg supportedHashAlgs ->
  value (VerifyAttestation attestation opts)
  = (None, Some (Wrapf "in AK public area: "
                   (ErrorfAlg "unsupported hash algorithm: " signHashAlg)))
  /\ examinesQuotes (trace (VerifyAttestation attestation opts)) = false.
Proof.
  intros Hd Hk Ht Hs Hout.
  destruct (checkHashAlgSupported signHashAlg opts) as [e|] eqn:Ha.
  - apply checkHashAlgSupported_Some in Ha as [-> _].
    rewrite VerifyAttestation_unfold. cbv zeta. rewrite Hd, Hk, Ht, Hs.
    unfold checkHashAlgSupported.
    destruct (hashAlgIn signHashAlg supportedHashAlgs) eqn:Hin.
    + apply hashAlgIn_In in Hin. contradiction.
    + split; reflexivity.
  - apply checkHashAlgSupported_None in Ha. contradiction.
Qed.

(** C6, as the code has it. With an empty [opts.TrustedAKs],
    [VerifyAttestation] never accepts: it returns a [nil] state and an
    error.  When the AK public area decodes to a key, that error is the
    untrusted-key error of the empty trust set, and no quote is examined. *)
Theorem empty_trust_set_never_accepts attestation opts :
  TrustedAKs opts = [] ->
  exists e,
    value (VerifyAttestation attestation opts) = (None, Some e)
    /\ (forall akPubArea akPubKey,
           DecodePublic (GetAkPub attestation) = Ok akPubArea ->
           Key akPubArea = Ok akPubKey ->
           e = Errorf "no mechanism for AK verification provided"
           /\ isUntrustedKey e = true
           /\ examinesQuotes (trace (VerifyAttestation attestation opts)) = false).
Proof.
  intros Hnil. rewrite VerifyAttestation_unfold. cbv zeta.
  destruct (DecodePublic _) as [area|err] eqn:Hd.
  - destruct (Key area) as [key|err] eqn:Hk.
    + rewrite (checkAkTrusted_empty key opts Hnil).
      eexists; split; [reflexivity|]. intros; repeat split.
    + eexists; split; [reflexivity|]. intros a k Hd' Hk'. congruence.
  - eexists; split; [reflexivity|]. intros a k Hd'. congruence.
Qed.

(** *** The loop over the candidates *)

Lemma candidate_supported attestation opts quote :
  In quote (supportedQuotes (GetQuotes attestation)) ->
  checkHashAlgSupported (pcrBankAlg quote) opts = None.
Proof.
  intros Hin. apply checkHashAlgSupported_None. now apply supportedQuotes_In in Hin.
Qed.

(** Soft failures followed by a candidate that verifies: success. *)
Lemma VerifyAttestation_first_verified attestation opts akPubKey pre quote post state :
  PassesAkChecks attestation opts akPubKey ->
  supportedQuotes (GetQuotes attestation) = pre ++ quote :: post ->
  AllFailSoftly attestation opts akPubKey pre ->
  Verifies attestation opts akPubKey quote state ->
  value (VerifyAttestation attestation opts) = (state, None)
  /\ verified (trace (VerifyAttestation attestation opts)) = pre ++ [quote].
Proof.
  intros Hpass Hsel Hpre Hver.
  destruct (VerifyAttestation_loop attestation opts akPubKey Hpass) as [Hv Ht].
  rewrite Hv, Ht, Hsel.
  destruct (Recorded_exists attestation opts akPubKey pre Hpre None) as [lastErr Hrec].
  destruct (verifyQuotes_skip attestation opts akPubKey pre (quote :: post) None lastErr Hrec)
    as [Hv' Ht'].
  rewrite Hv', Ht'.
  rewrite (verifyQuotes_pass attestation opts akPubKey quote state post lastErr Hver).
  - split; reflexivity.
  - apply (candidate_supported attestation). rewrite Hsel. apply in_elt.
Qed.

(** Only soft failures: the error of the last candidate. *)
Lemma VerifyAttestation_all_soft attestation opts akPubKey pre quote e :
  PassesAkChecks attestation opts akPubKey ->
  supportedQuotes (GetQuotes attestation) = pre ++ [quote] ->
  AllFailSoftly attestation opts akPubKey pre ->
  SoftFails attestation opts akPubKey quote e ->
  value (VerifyAttestation attestation opts) = (None, Some e)
  /\ verified (trace (VerifyAttestation attestation opts)) = pre ++ [quote].
Proof.
  intros Hpass Hsel Hpre Hsoft.
  destruct (VerifyAttestation_loop attestation opts akPubKey Hpass) as [Hv Ht].
  rewrite Hv, Ht, Hsel.
  destruct (Recorded_exists attestation opts akPubKey pre Hpre None) as [lastErr Hrec].
  pose proof (Recorded_snoc attestation opts akPubKey pre quote e None lastErr Hrec Hsoft)
    as Hall.
  destruct (verifyQuotes_skip attestation opts akPubKey (pre ++ [quote]) [] None (Some e) Hall)
    as [Hv' Ht'].
  rewrite app_nil_r in Hv', Ht'. rewrite Hv', Ht'. cbn. now rewrite app_nil_r.
Qed.

(** C2. Past the AK checks, a candidate that fails the Single-Quote
    Verifier or the replay is passed over and the next one is tried, in
    the selector's order: a later candidate that verifies gives success
    with its state, and when every candidate fails softly the error
    returned is the one recorded for the last candidate alone. *)
Theorem soft_failures_fall_through attestation opts akPubKey :
  PassesAkChecks attestation opts akPubKey ->
  (forall pre quote post state,
      supportedQuotes (GetQuotes attestation) = pre ++ quote :: post ->
      AllFailSoftly attestation opts akPubKey pre ->
      Verifies attestation opts akPubKey quote state ->
      value (VerifyAttestation attestation opts) = (state, None)
      /\ verified (trace (VerifyAttestation attestation opts)) = pre ++ [quote])
  /\ (forall pre quote e,
         supportedQuotes (GetQuotes attestation) = pre ++ [quote] ->
         AllFailSoftly attestation opts akPubKey pre ->
         SoftFails attestation opts akPubKey quote e ->
         value (VerifyAttestation attestation opts) = (None, Some e)
         /\ verified (trace (VerifyAttestation attestation opts)) = pre ++ [quote]).
Proof.
  intros Hpass. split.
  - intros pre quote post state. now apply VerifyAttestation_first_verified.
  - intros pre quote e. now apply VerifyAttestation_all_soft.
Qed.

Lemma verifyQuotes_no_quote_error attestation opts akPubKey quotes :
  forall lastErr state,
    (forall e, lastErr = Some e -> e <> errNoSupportedQuote) ->
    value (verifyQuotes attestation opts akPubKey quotes lastErr)
    = (state, Some errNoSupportedQuote) ->
    quotes = [] /\ lastErr = None.
Proof.
  induction quotes as [|q rest IH]; intros lastErr state Hlast.
  - cbn. destruct lastErr as [e|]; cbn; [|auto].
    intros [= _ He]. now destruct (Hlast e eq_refl).
  - cbn [verifyQuotes]. rewrite bind_call.
    destruct (VerifyQuote q akPubKey (Nonce opts)) as [err|].
    + intros Hv. apply IH in Hv as [_ Hv]; [discriminate|].
      intros e [= <-]. discriminate.
    + rewrite bind_call.
      destruct (ParseAndReplayEventLog _ _) as [st [err|]].
      * intros Hv. apply IH in Hv as [_ Hv]; [discriminate|].
        intros e [= <-]. discriminate.
      * destruct (checkHashAlgSupported _ opts); cbn; discriminate.
Qed.

(** C7. [VerifyAttestation] returns the error "attestation does not
    contain a supported quote" exactly when the AK checks pass and the
    selector returns no candidate; with at least one candidate, all of
    them failing softly, it returns the error recorded for the last one,
    which is a different error. *)
Theorem no_supported_quote_iff attestation opts :
  (value (VerifyAttestation attestation opts) = (None, Some errNoSupportedQuote)
   <-> (exists akPubKey, PassesAkChecks attestation opts akPubKey)
       /\ supportedQuotes (GetQuotes attestation) = [])
  /\ (forall akPubKey pre quote e,
         PassesAkChecks attestation opts akPubKey ->
         supportedQuotes (GetQuotes attestation) = pre ++ [quote] ->
         AllFailSoftly attestation opts akPubKey pre ->
         SoftFails attestation opts akPubKey quote e ->
         value (VerifyAttestation attestation opts) = (None, Some e)
         /\ e <> errNoSupportedQuote).
Proof.
  split; [split|].
  - rewrite VerifyAttestation_unfold. cbv zeta. unfold PassesAkChecks.
    destruct (DecodePublic _) as [area|] eqn:Hd; [|cbn; discriminate].
    destruct (Key area) as [key|] eqn:Hk; [|cbn; discriminate].
    destruct (checkAkTrusted key opts) as [e|] eqn:Ht.
    { intros [= ->]. apply checkAkTrusted_Some in Ht. discriminate Ht. }
    destruct (GetSigningHashAlg area) as [alg|] eqn:Hs; [|cbn; discriminate].
    destruct (checkHashAlgSupported alg opts) eqn:Ha; [cbn; discriminate|].
    intros Hv. apply verifyQuotes_no_quote_error in Hv as [Hnil _]; [|discriminate].
    split; [|exact Hnil]. exists key, area, alg. auto.
  - intros [[key Hpass] Hnil].
    destruct (VerifyAttestation_loop attestation opts key Hpass) as [Hv _].
    rewrite Hv, Hnil. reflexivity.
  - intros key pre quote e Hpass Hsel Hpre Hsoft. split.
    + now apply (VerifyAttestation_all_soft attestation opts key pre quote e).
    + destruct Hsoft; discriminate.
Qed.

Lemma verifyQuotes_no_pcr_alg_error attestation opts akPubKey quotes :
  Forall (fun quote => checkHashAlgSupported (pcrBankAlg quote) opts = None) quotes ->
  forall lastErr e,
    (forall e0, lastErr = Some e0 -> isUnsupportedPcrAlg e0 = false) ->
    snd (value (verifyQuotes attestation opts akPubKey quotes lastErr)) = Some e ->
    isUnsupportedPcrAlg e = false.
Proof.
  induction 1 as [|q rest Hq _ IH]; intros lastErr e Hlast.
  - cbn. destruct lastErr as [e0|]; cbn.
    + intros [= <-]. now apply Hlast.
    + intros [= <-]. reflexivity.
  - cbn [verifyQuotes]. rewrite bind_call.
    destruct (VerifyQuote q akPubKey (Nonce opts)) as [err|].
    + apply IH. intros e0 [= <-]. now destruct err.
    + rewrite bind_call.
      destruct (ParseAndReplayEventLog _ _) as [st [err|]].
      * apply IH. intros e0 [= <-]. now destruct err.
      * fold (pcrBankAlg q). rewrite Hq. cbn. discriminate.
Qed.

(** C1, as the code has it. Every quote that [VerifyAttestation] hands to
    the Single-Quote Verifier is a candidate of the selector, and its
    PCR-bank algorithm is in the policy list; a quote whose algorithm is
    outside the policy is never examined.  So when a candidate passes the
    Single-Quote Verifier and the replay succeeds, the candidates before
    it having failed softly, its algorithm is supported and its state is
    returned; [VerifyAttestation] never returns the
    unsupported-PCR-algorithm error. *)
Theorem pcr_alg_check_never_fails attestation opts :
  (forall quote,
      In quote (verified (trace (VerifyAttestation attestation opts))) ->
      In quote (supportedQuotes (GetQuotes attestation))
      /\ checkHashAlgSupported (pcrBankAlg quote) opts = None)
  /\ (forall quote,
         In quote (GetQuotes attestation) ->
         ~ In (pcrBankAlg quote) supportedHashAlgs ->
         ~ In quote (verified (trace (VerifyAttestation attestation opts))))
  /\ (forall akPubKey pre quote post state,
         PassesAkChecks attestation opts akPubKey ->
         supportedQuotes (GetQuotes attestation) = pre ++ quote :: post ->
         AllFailSoftly attestation opts akPubKey pre ->
         Verifies attestation opts akPubKey quote state ->
         checkHashAlgSupported (pcrBankAlg quote) opts = None
         /\ value (VerifyAttestation attestation opts) = (state, None))
  /\ (forall e,
         snd (value (VerifyAttestation attestation opts)) = Some e ->
         isUnsupportedPcrAlg e = false).
Proof.
  assert (Hex : forall quote,
             In quote (verified (trace (VerifyAttestation attestation opts))) ->
             In quote (supportedQuotes (GetQuotes attestation))).
  { intros quote. rewrite VerifyAttestation_unfold. cbv zeta.
    destruct (DecodePublic _) as [area|]; [|intros []].
    destruct (Key area) as [key|]; [|intros []].
    destruct (checkAkTrusted key opts); [intros []|].
    destruct (GetSigningHashAlg area) as [alg|]; [|intros []].
    destruct (checkHashAlgSupported alg opts); [intros []|].
    intros Hin.
    destruct (verifyQuotes_verified_prefix attestation opts key
                (supportedQuotes (GetQuotes attestation)) None) as [post Hpost].
    rewrite Hpost. apply in_or_app. left. exact Hin. }
  split; [|split; [|split]].
  - intros quote Hin. apply Hex in Hin. split; [exact Hin|].
    now apply (candidate_supported attestation).
  - intros quote _ Hout Hin. apply Hex, supportedQuotes_In in Hin. tauto.
  - intros key pre quote post state Hpass Hsel Hpre Hver. split.
    + apply (candidate_supported attestation). rewrite Hsel. apply in_elt.
    + now apply (VerifyAttestation_first_verified attestation opts key pre quote post).
  - intros e. rewrite VerifyAttestation_unfold. cbv zeta.
    destruct (DecodePublic _) as [area|err]; [|intros [= <-]; now destruct err].
    destruct (Key area) as [key|err]; [|intros [= <-]; now destruct err].
    destruct (checkAkTrusted key opts) as [e0|] eqn:Ht.
    { intros [= <-]. apply checkAkTrusted_Some in Ht. now destruct e0. }
    destruct (GetSigningHashAlg area) as [alg|err]; [|intros [= <-]; now destruct err].
    destruct (checkHashAlgSupported alg opts) as [e0|];
      [intros [= <-]; now destruct e0|].
    apply verifyQuotes_no_pcr_alg_error; [|discriminate].
    apply Forall_forall. intros quote. apply candidate_supported.
Qed.

End OrchestratorClaims.

(* ------------------------------------------------------------------ *)
(** ** The verifier at work on the sample instance *)

Lemma mock_replay_convention (log : list byte) (pcrs : option PCRs) (state : option (list byte)) :
  Mock.parseAndReplayEventLog log pcrs = (state, None) -> state <> None.
Proof.
  unfold Mock.parseAndReplayEventLog.
  destruct pcrs as [p|]; [|discriminate].
  destruct (Pcrs p) as [|[i d] ?]; [discriminate|].
  destruct i; try discriminate.
  destruct (Mock.bytesEqual d log); [|discriminate].
  intros [= <-]. discriminate.
Qed.

Lemma mock_passes_ak_checks (quotes : list (option Quote)) :
  @PassesAkChecks Mock.caps (Mock.attestation Mock.akSHA256 quotes)
    (Mock.opts [Mock.theKey]) Mock.theKey.
Proof.
  exists {| Mock.areaN := 7; Mock.areaSigHash := AlgSHA256 |}, AlgSHA256.
  repeat split.
Qed.

(** SHA-512 quote with a bad signature, SHA-384 quote that does not match
    the log, SHA-256 quote that verifies: success on the SHA-256 quote,
    after the other two were tried in preference order. *)
Lemma soft_failures_fall_through_witness :
  let attestation :=
    Mock.attestation Mock.akSHA256
      [Mock.goodQuote 11; Mock.badSigQuote 13; Mock.badLogQuote 12] in
  let opts := Mock.opts [Mock.theKey] in
  value (@VerifyAttestation Mock.caps attestation opts) = (Some Mock.log, None)
  /\ verified (trace (@VerifyAttestation Mock.caps attestation opts))
     = [Mock.badSigQuote 13; Mock.badLogQuote 12] ++ [Mock.goodQuote 11].
Proof.
  intros attestation opts.
  destruct (@soft_failures_fall_through Mock.caps attestation opts Mock.theKey
              (mock_passes_ak_checks _)) as [Hfirst _].
  apply (Hfirst [Mock.badSigQuote 13; Mock.badLogQuote 12] (Mock.goodQuote 11) []).
  - reflexivity.
  - constructor; [|constructor; [|constructor]].
    + eexists. apply SoftFails_quote. reflexivity.
    + eexists. eapply SoftFails_replay; reflexivity.
  - split; reflexivity.
Defined.

Lemma untrusted_ak_rejected_witness :
  let attestation := Mock.attestation Mock.akSHA256 [Mock.goodQuote 11] in
  let opts := Mock.opts [Mock.otherKey] in
  exists e,
    value (@VerifyAttestation Mock.caps attestation opts) = (None, Some e)
    /\ isUntrustedKey e = true
    /\ examinesQuotes (trace (@VerifyAttestation Mock.caps attestation opts)) = false.
Proof.
  intros attestation opts.
  apply (@untrusted_ak_rejected Mock.caps attestation opts
           {| Mock.areaN := 7; Mock.areaSigHash := AlgSHA256 |} Mock.theKey).
  - reflexivity.
  - reflexivity.
  - intros trusted [<-|[]]. reflexivity.
Defined.

Lemma unsupported_signing_alg_rejected_witness :
  let attestation := Mock.attestation Mock.akSHA1 [Mock.goodQuote 11] in
  let opts := Mock.opts [Mock.theKey] in
  value (@VerifyAttestation Mock.caps attestation opts)
  = (None, Some (Wrapf "in AK public area: "
                   (ErrorfAlg "unsupported hash algorithm: " AlgSHA1)))
  /\ examinesQuotes (trace (@VerifyAttestation Mock.caps attestation opts)) = false.
Proof.
  intros attestation opts.
  apply (@unsupported_signing_alg_rejected Mock.caps attestation opts
           {| Mock.areaN := 7; Mock.areaSigHash := AlgSHA1 |} Mock.theKey AlgSHA1).
  - reflexivity.
  - reflexivity.
  - reflexivity.
  - reflexivity.
  - unfold supportedHashAlgs, AlgSHA1, AlgSHA512, AlgSHA384, AlgSHA256.
    simpl. intuition discriminate.
Defined.

(** C5 as stated fails: an AK that signs with SHA-1 and is not trusted is
    rejected by the trust check, which comes first, with the untrusted-key
    error. *)
Lemma unsupported_signing_alg_untrusted_counterexample :
  let attestation := Mock.attestation Mock.akSHA1 [Mock.goodQuote 11] in
  let opts := Mock.opts [Mock.otherKey] in
  let akPubArea := {| Mock.areaN := 7; Mock.areaSigHash := AlgSHA1 |} in
  @DecodePublic Mock.caps (GetAkPub attestation) = Ok akPubArea
  /\ @GetSigningHashAlg Mock.caps akPubArea = Ok AlgSHA1
  /\ checkHashAlgSupported AlgSHA1 opts
     = Some (ErrorfAlg "unsupported hash algorithm: " AlgSHA1)
  /\ value (@VerifyAttestation Mock.caps attestation opts)
     = (None, Some (Errorf "AK public key is not trusted"))
  /\ isUnsupportedSigningAlg (Errorf "AK public key is not trusted") = false.
Proof.
  repeat split.
Qed.

Lemma empty_trust_set_never_accepts_witness :
  let attestation := Mock.attestation Mock.akSHA256 [Mock.goodQuote 11] in
  let opts := Mock.opts [] in
  exists e,
    value (@VerifyAttestation Mock.caps attestation opts) = (None, Some e)
    /\ (forall akPubArea akPubKey,
           @DecodePublic Mock.caps (GetAkPub attestation) = Ok akPubArea ->
           @Key Mock.caps akPubArea = Ok akPubKey ->
           e = Errorf "no mechanism for AK verification provided"
           /\ isUntrustedKey e = true
           /\ examinesQuotes (trace (@VerifyAttestation Mock.caps attestation opts)) = false).
Proof.
  intros attestation opts.
  apply (@empty_trust_set_never_accepts Mock.caps attestation opts).
  reflexivity.
Defined.

(** C6 as stated fails: with an empty trust set and an AK public area that
    does not decode (here the empty byte string), the error is the decode
    error, not the untrusted-key error. *)
Lemma empty_trust_set_decode_counterexample :
  let attestation := Mock.attestation [] [Mock.goodQuote 11] in
  let opts := Mock.opts [] in
  TrustedAKs opts = []
  /\ value (@VerifyAttestation Mock.caps attestation opts)
     = (None, Some (Wrapf "failed to decode AK public area: "
                      (Errorf "decoding public area")))
  /\ isUntrustedKey (Wrapf "failed to decode AK public area: "
                       (Errorf "decoding public area")) = false.
Proof.
  repeat split.
Qed.

Lemma VerifyAttestation_outcome_witness :
  let attestation :=
    Mock.attestation Mock.akSHA256 [Mock.badLogQuote 13; Mock.goodQuote 11] in
  let opts := Mock.opts [Mock.theKey] in
  (exists s, value (@VerifyAttestation Mock.caps attestation opts) = (Some s, None))
  \/ (exists e, value (@VerifyAttestation Mock.caps attestation opts) = (None, Some e)).
Proof.
  intros attestation opts.
  apply (@VerifyAttestation_outcome Mock.caps attestation opts).
  exact mock_replay_convention.
Defined.

(** C1 as stated fails: a quote over a SHA-1 bank that passes the
    Single-Quote Verifier and whose log replays is dropped by the
    selector.  Next to a SHA-256 quote that verifies, the attestation is
    accepted on the SHA-256 quote; alone, the error is that there is no
    supported quote.  Neither run hands the SHA-1 quote to the verifier. *)
Lemma unsupported_pcr_alg_dropped_counterexample :
  let sha1Quote := Mock.goodQuote 4 in
  let opts := Mock.opts [Mock.theKey] in
  let both := Mock.attestation Mock.akSHA256 [sha1Quote; Mock.goodQuote 11] in
  let alone := Mock.attestation Mock.akSHA256 [sha1Quote] in
  @VerifyQuote Mock.caps sha1Quote Mock.theKey (Nonce opts) = None
  /\ @ParseAndReplayEventLog Mock.caps (GetEventLog both) (GetPcrs sha1Quote)
     = (Some Mock.log, None)
  /\ checkHashAlgSupported (pcrBankAlg sha1Quote) opts
     = Some (ErrorfAlg "unsupported hash algorithm: " AlgSHA1)
  /\ value (@VerifyAttestation Mock.caps both opts) = (Some Mock.log, None)
  /\ verified (trace (@VerifyAttestation Mock.caps both opts)) = [Mock.goodQuote 11]
  /\ value (@VerifyAttestation Mock.caps alone opts) = (None, Some errNoSupportedQuote)
  /\ verified (trace (@VerifyAttestation Mock.caps alone opts)) = []
  /\ isUnsupportedPcrAlg errNoSupportedQuote = false.
Proof.
  repeat split.
Qed.

(** The dead branch is live in the loop itself: handed a list that the
    selector would never produce, the loop stops at the verified SHA-1
    quote and does not try the SHA-256 quote behind it. *)
Example verifyQuotes_fatal_example :
  let opts := Mock.opts [Mock.theKey] in
  let attestation := Mock.attestation Mock.akSHA256 [] in
  @verifyQuotes Mock.caps attestation opts Mock.theKey
    [Mock.badSigQuote 13; Mock.goodQuote 4; Mock.goodQuote 11] None
  = ((None, Some (Wrapf "when verifying PCRs: "
                    (ErrorfAlg "unsupported hash algorithm: " AlgSHA1))),
     [CallVerifyQuote (Mock.badSigQuote 13) Mock.nonce;
      CallVerifyQuote (Mock.goodQuote 4) Mock.nonce;
      CallParseAndReplayEventLog Mock.log (GetPcrs (Mock.goodQuote 4))]).
Proof. reflexivity. Qed.

(** The selector on a list with a nil quote, a duplicate algorithm, an
    algorithm outside the policy and one that only matches after the
    truncation to 16 bits. *)
Example supportedQuotes_example :
  supportedQuotes
    [Mock.goodQuote 11; None; Mock.badSigQuote 12; Mock.goodQuote 4;
     Mock.badLogQuote 11; Mock.goodQuote 65549]
  = [Mock.goodQuote 65549; Mock.badSigQuote 12; Mock.goodQuote 11].
Proof. reflexivity. Qed.

(* ================================================================== *)
(** * Further properties of the trust check and of the selector *)

(* ------------------------------------------------------------------ *)
(** ** Key equality and the trust check *)

Lemma pubKeysEqual_true (k1 k2 : PublicKey) :
  pubKeysEqual k1 k2 = true <-> k1 = k2 /\ (isRSA k1 = true \/ isECDSA k1 = true).
Proof.
  destruct k1 as [N E|c X Y|t r], k2 as [N' E'|c' X' Y'|t' r']; simpl;
    try (split; [discriminate | intros [Heq _]; discriminate Heq]);
    try (split; [discriminate | intros [_ [Hf|Hf]]; discriminate Hf]).
  - rewrite andb_true_iff, !Z.eqb_eq. split.
    + intros [-> ->]. auto.
    + intros [[= -> ->] _]. auto.
  - rewrite !andb_true_iff, !Z.eqb_eq, String.eqb_eq. split.
    + intros [[-> ->] ->]. auto.
    + intros [[= -> -> ->] _]. auto.
Qed.



Lemma anyTrusted_true (ak : PublicKey) (trustedAKs : list PublicKey) :
  anyTrusted ak trustedAKs = true <->
  exists trusted, In trusted trustedAKs /\ pubKeysEqual ak trusted = true.
Proof.
  induction trustedAKs as [|t rest IH]; simpl.
  - split; [discriminate | intros (x & [] & _)].
  - destruct (pubKeysEqual ak t) eqn:Heq.
    + split; [intros _; exists t; auto | reflexivity].
    + rewrite IH. split.
      * intros (x & Hin & Hx). exists x. auto.
      * intros (x & [<-|Hin] & Hx); [congruence | exists x; auto].
Qed.

Lemma checkAkTrusted_listed (ak : PublicKey) (opts : VerifyOpts) :
  In ak (TrustedAKs opts) -> isRSA ak = true \/ isECDSA ak = true ->
  checkAkTrusted ak opts = None.
Proof.
  intros Hin Hfam. unfold checkAkTrusted.
  destruct (TrustedAKs opts) as [|t rest] eqn:Hl; [destruct Hin|].
  change (Z.of_nat (List.length (t :: rest)) =? 0) with false. cbv iota.
  replace (anyTrusted ak (t :: rest)) with true; [reflexivity|].
  symmetry. apply anyTrusted_true. exists ak. split; [exact Hin|].
  apply pubKeysEqual_true. auto.
Qed.


(** X3. The verdict of [checkAkTrusted], error included, depends only on
    which keys occur in [opts.TrustedAKs]: not on their order, not on
    repetitions, and not on the nonce. *)
Theorem checkAkTrusted_same_keys (ak : PublicKey) (opts opts' : VerifyOpts) :
  (forall k, In k (TrustedAKs opts) <-> In k (TrustedAKs opts')) ->
  checkAkTrusted ak opts = checkAkTrusted ak opts'.
Proof.
  intros Hsame.
  assert (Hany : anyTrusted ak (TrustedAKs opts) = anyTrusted ak (TrustedAKs opts')).
  { destruct (anyTrusted ak (TrustedAKs opts')) eqn:H'.
    - apply anyTrusted_true in H' as (t & Hin & Heq).
      apply anyTrusted_true. exists t. split; [now apply Hsame | exact Heq].
    - apply anyTrusted_false. intros t Hin.
      apply (proj1 (anyTrusted_false ak (TrustedAKs opts')) H'). now apply Hsame. }
  unfold checkAkTrusted. rewrite Hany.
  destruct (TrustedAKs opts) as [|t rest], (TrustedAKs opts') as [|t' rest'];
    try reflexivity.
  - destruct (proj2 (Hsame t') (or_introl eq_refl)).
  - destruct (proj1 (Hsame t) (or_introl eq_refl)).
Qed.

Lemma checkAkTrusted_same_keys_witness :
  checkAkTrusted Mock.theKey (Mock.opts [Mock.otherKey; Mock.theKey])
  = checkAkTrusted Mock.theKey
      {| Nonce := []; TrustedAKs := [Mock.theKey; Mock.otherKey; Mock.theKey] |}.
Proof.
  apply checkAkTrusted_same_keys. intros k. simpl. tauto.
Defined.

(* ------------------------------------------------------------------ *)
(** ** The selector *)

Lemma first_match_sound (alg : Algorithm) (quotes : list (option Quote)) (quote : option Quote) :
  find (fun q => pcrBankAlg q =? alg) quotes = Some quote ->
  In quote quotes /\ pcrBankAlg quote = alg.
Proof.
  intros Hfind. apply find_some in Hfind as [Hin Halg].
  split; [exact Hin | now apply Z.eqb_eq].
Qed.

Lemma first_match_none (alg : Algorithm) (quotes : list (option Quote)) :
  find (fun q => pcrBankAlg q =? alg) quotes = None <->
  forall quote, In quote quotes -> pcrBankAlg quote <> alg.
Proof.
  split.
  - intros Hfind quote Hin Halg.
    apply (find_none _ _ Hfind) in Hin. apply Z.eqb_neq in Hin. contradiction.
  - intros Hall. destruct (find _ quotes) as [q|] eqn:Hfind; [|reflexivity].
    apply first_match_sound in Hfind as [Hin Halg]. now destruct (Hall q Hin).
Qed.

(** Searching the selector's output for a policy algorithm finds what the
    search of its input finds. *)
Lemma selectByPreference_find (alg : Algorithm) (quotes : list (option Quote)) :
  In alg supportedHashAlgs ->
  find (fun q => pcrBankAlg q =? alg) (selectByPreference quotes)
  = find (fun q => pcrBankAlg q =? alg) quotes.
Proof.
  intros Hpol. unfold selectByPreference. cbn [flat_map].
  destruct (find (fun q => pcrBankAlg q =? AlgSHA512) quotes) as [q1|] eqn:H1;
    [pose proof (proj2 (first_match_sound _ _ _ H1)) as E1|];
  (destruct (find (fun q => pcrBankAlg q =? AlgSHA384) quotes) as [q2|] eqn:H2;
    [pose proof (proj2 (first_match_sound _ _ _ H2)) as E2|]);
  (destruct (find (fun q => pcrBankAlg q =? AlgSHA256) quotes) as [q3|] eqn:H3;
    [pose proof (proj2 (first_match_sound _ _ _ H3)) as E3|]);
  destruct Hpol as [<-|[<-|[<-|[]]]];
  cbn [app find]; rewrite ?E1, ?E2, ?E3; cbn; congruence.
Qed.

(** X4. The selector is idempotent: selecting again from its own output
    changes nothing. *)
Theorem supportedQuotes_idempotent (quotes : list (option Quote)) :
  supportedQuotes (supportedQuotes quotes) = supportedQuotes quotes.
Proof.
  rewrite !supportedQuotes_selectByPreference.
  set (selected := selectByPreference quotes).
  unfold selectByPreference at 1. cbn [flat_map]. subst selected.
  rewrite !selectByPreference_find by (unfold supportedHashAlgs; simpl; auto).
  reflexivity.
Qed.

Lemma supportedQuotes_NoDup (quotes : list (option Quote)) : NoDup (supportedQuotes quotes).
Proof.
  apply (NoDup_map_inv pcrBankAlg).
  rewrite supportedQuotes_algs. apply NoDup_filter, supportedHashAlgs_NoDup.
Qed.

Lemma supportedQuotes_at_most_three (quotes : list (option Quote)) :
  (List.length (supportedQuotes quotes) <= 3)%nat.
Proof.
  rewrite <- (length_map pcrBankAlg), supportedQuotes_algs.
  apply (filter_length_le _ supportedHashAlgs).
Qed.

(** X5. The selector returns at most three quotes and never more than it
    was given, without repetition: the slice it allocates with the
    capacity of its input is never outgrown. *)
Theorem supportedQuotes_length (quotes : list (option Quote)) :
  (List.length (supportedQuotes quotes) <= 3)%nat
  /\ (List.length (supportedQuotes quotes) <= List.length quotes)%nat
  /\ NoDup (supportedQuotes quotes).
Proof.
  split; [apply supportedQuotes_at_most_three|]. split.
  - apply NoDup_incl_length; [apply supportedQuotes_NoDup|].
    intros q Hin. now apply supportedQuotes_In in Hin.
  - apply supportedQuotes_NoDup.
Qed.

Lemma supportedQuotes_nil_iff (quotes : list (option Quote)) :
  supportedQuotes quotes = [] <->
  forall quote, In quote quotes -> ~ In (pcrBankAlg quote) supportedHashAlgs.
Proof.
  split.
  - intros Hnil quote Hin Hpol.
    assert (Halg : In (pcrBankAlg quote) (map pcrBankAlg (supportedQuotes quotes))).
    { rewrite supportedQuotes_algs. apply filter_In. split; [exact Hpol|].
      apply existsb_exists. exists quote. split; [exact Hin | apply Z.eqb_refl]. }
    rewrite Hnil in Halg. destruct Halg.
  - intros Hall. destruct (supportedQuotes quotes) as [|q rest] eqn:Hsel; [reflexivity|].
    assert (Hq : In q (supportedQuotes quotes)) by (rewrite Hsel; now left).
    apply supportedQuotes_In in Hq as [Hin Hpol]. destruct (Hall q Hin Hpol).
Qed.

(** X6. The selector returns no candidate exactly when no quote of its
    input has a PCR-bank algorithm of the policy; the empty list and a
    list of nil quotes are such inputs. *)
Theorem supportedQuotes_empty_iff (quotes : list (option Quote)) :
  (supportedQuotes quotes = [] <->
   forall quote, In quote quotes -> ~ In (pcrBankAlg quote) supportedHashAlgs)
  /\ supportedQuotes [] = []
  /\ (forall n, supportedQuotes (repeat None n) = []).
Proof.
  split; [apply supportedQuotes_nil_iff|]. split; [reflexivity|].
  intros n. apply supportedQuotes_nil_iff. intros quote Hin.
  apply repeat_spec in Hin. subst quote.
  unfold supportedHashAlgs. simpl. intuition discriminate.
Qed.

(** X7. When the input holds at most one quote per policy algorithm, the
    selection depends only on which quotes are present, not on the order
    in which the attester lists them. *)
Theorem supportedQuotes_order_irrelevant (quotes quotes' : list (option Quote)) :
  (forall quote, In quote quotes <-> In quote quotes') ->
  (forall q1 q2,
      In q1 quotes -> In q2 quotes ->
      pcrBankAlg q1 = pcrBankAlg q2 -> In (pcrBankAlg q1) supportedHashAlgs ->
      q1 = q2) ->
  supportedQuotes quotes = supportedQuotes quotes'.
Proof.
  intros Hsame Huniq.
  assert (Hfind : forall alg, In alg supportedHashAlgs ->
            find (fun q => pcrBankAlg q =? alg) quotes
            = find (fun q => pcrBankAlg q =? alg) quotes').
  { intros alg Hpol.
    destruct (find _ quotes') as [q'|] eqn:H'.
    - apply first_match_sound in H' as [Hin' Halg'].
      destruct (find _ quotes) as [q|] eqn:Hq.
      + apply first_match_sound in Hq as [Hin Halg]. f_equal.
        apply Huniq; [exact Hin | now apply Hsame | congruence | now rewrite Halg].
      + apply Hsame in Hin'. now destruct (proj1 (first_match_none _ _) Hq q' Hin').
    - apply first_match_none. intros q Hin.
      apply (proj1 (first_match_none _ _) H'). now apply Hsame. }
  rewrite !supportedQuotes_selectByPreference. unfold selectByPreference.
  cbn [flat_map]. rewrite !Hfind by (unfold supportedHashAlgs; simpl; auto).
  reflexivity.
Qed.

Lemma supportedQuotes_order_irrelevant_witness :
  supportedQuotes [Mock.goodQuote 11; Mock.badSigQuote 13; None; Mock.goodQuote 4]
  = supportedQuotes
      [None; Mock.goodQuote 4; Mock.badSigQuote 13; Mock.goodQuote 11; Mock.goodQuote 4].
Proof.
  apply supportedQuotes_order_irrelevant.
  - intros quote. simpl. tauto.
  - intros q1 q2 H1 H2 Halg _. simpl in H1, H2.
    repeat (destruct H1 as [<-|H1]); try contradiction;
      repeat (destruct H2 as [<-|H2]); try contradiction;
      try reflexivity; vm_compute in Halg; discriminate Halg.
Defined.

(** X8. The selector and the PCR-algorithm check read only the low 16
    bits of a bank's 32-bit hash identifier: a quote whose identifier
    differs from a policy algorithm by a multiple of 65536 counts as a
    quote of that algorithm. *)
Theorem pcrBankAlg_low_16_bits (q : Quote) (p : PCRs) (alg : Algorithm) (k : Z)
  (opts : VerifyOpts) :
  QPcrs q = Some p ->
  In alg supportedHashAlgs ->
  Hash p = alg + 65536 * k ->
  pcrBankAlg (Some q) = alg
  /\ checkHashAlgSupported (pcrBankAlg (Some q)) opts = None
  /\ (forall quotes, In (Some q) quotes ->
        exists quote, In quote (supportedQuotes quotes) /\ pcrBankAlg quote = alg).
Proof.
  intros Hp Hpol Hhash.
  assert (Halg : pcrBankAlg (Some q) = alg).
  { unfold pcrBankAlg, toAlgorithm. cbn [GetPcrs]. rewrite Hp. cbn [GetHash].
    rewrite Hhash, (Z.mul_comm 65536 k), Z_mod_plus_full.
    destruct Hpol as [<-|[<-|[<-|[]]]]; reflexivity. }
  split; [exact Halg|]. split.
  - rewrite Halg. now apply checkHashAlgSupported_None.
  - intros quotes Hin.
    destruct (find (fun x => pcrBankAlg x =? alg) quotes) as [quote|] eqn:Hfind.
    + exists quote. split; [|now apply first_match_sound in Hfind].
      rewrite supportedQuotes_selectByPreference. unfold selectByPreference.
      apply in_flat_map. exists alg. split; [exact Hpol|].
      rewrite Hfind. now left.
    + now destruct (proj1 (first_match_none _ _) Hfind _ Hin).
Qed.

Lemma pcrBankAlg_low_16_bits_witness :
  let q := {| QuoteInfo := []; RawSig := [];
              QPcrs := Some {| Hash := 0x1000B; Pcrs := [] |} |} in
  pcrBankAlg (Some q) = AlgSHA256
  /\ checkHashAlgSupported (pcrBankAlg (Some q)) (Mock.opts []) = None
  /\ (forall quotes, In (Some q) quotes ->
        exists quote, In quote (supportedQuotes quotes) /\ pcrBankAlg quote = AlgSHA256).
Proof.
  intros q.
  apply (pcrBankAlg_low_16_bits q {| Hash := 0x1000B; Pcrs := [] |} AlgSHA256 1).
  - reflexivity.
  - unfold supportedHashAlgs. simpl. auto.
  - reflexivity.
Defined.

(* ================================================================== *)
(** * Further properties of the orchestrator *)

(** The errors of the checks that precede the loop. *)
Definition isAkCheckError (e : error) : bool :=
  match e with
  | Errorf _ => isUntrustedKey e
  | Wrapf msg _ =>
      String.eqb msg "failed to decode AK public area: "
      || String.eqb msg "failed to get AK public key: "
      || String.eqb msg "bad AK public area: "
      || String.eqb msg "in AK public area: "
  | ErrorfAlg _ _ => false
  end.

(** The errors the loop records for a candidate. *)
Definition isSoftError (e : error) : bool :=
  match e with
  | Wrapf msg _ =>
      String.eqb msg "failed to verify quote: "
      || String.eqb msg "failed to validate the event log: "
  | _ => false
  end.

Section OrchestratorAnalysis.
Context `{Capabilities}.

Implicit Types (attestation : option Attestation) (opts : VerifyOpts).

(** *** Case analyses *)

Lemma candidate_decides attestation opts akPubKey quote :
  (exists e, SoftFails attestation opts akPubKey quote e)
  \/ (exists state, Verifies attestation opts akPubKey quote state).
Proof.
  destruct (VerifyQuote quote akPubKey (Nonce opts)) as [err|] eqn:Hq.
  - left. eexists. apply SoftFails_quote. exact Hq.
  - destruct (ParseAndReplayEventLog (GetEventLog attestation) (GetPcrs quote))
      as [state [err|]] eqn:Hr.
    + left. eexists. eapply SoftFails_replay; eassumption.
    + right. exists state. split; assumption.
Qed.

Lemma SoftFails_soft attestation opts akPubKey quote e :
  SoftFails attestation opts akPubKey quote e -> isSoftError e = true.
Proof. destruct 1; reflexivity. Qed.

Lemma Recorded_AllFailSoftly attestation opts akPubKey pre lastErr lastErr' :
  Recorded attestation opts akPubKey pre lastErr lastErr' ->
  AllFailSoftly attestation opts akPubKey pre.
Proof.
  induction 1 as [|q e pre le le' Hsoft _ IH]; constructor; [|exact IH].
  now exists e.
Qed.

Lemma Recorded_last attestation opts akPubKey pre quote :
  forall lastErr lastErr',
    Recorded attestation opts akPubKey (pre ++ [quote]) lastErr lastErr' ->
    exists e, SoftFails attestation opts akPubKey quote e /\ lastErr' = Some e.
Proof.
  induction pre as [|c pre IH]; intros lastErr lastErr' Hrec; simpl in Hrec.
  - inversion Hrec as [|q e p le le' Hsoft Hrest]; subst.
    inversion Hrest; subst. now exists e.
  - inversion Hrec as [|q e p le le' Hsoft Hrest]; subst.
    now apply (IH (Some e)).
Qed.

(** Either some candidate verifies after soft failures, or all fail. *)
Lemma candidates_cases attestation opts akPubKey quotes :
  forall lastErr,
    (exists pre quote post state lastErr',
        quotes = pre ++ quote :: post
        /\ Recorded attestation opts akPubKey pre lastErr lastErr'
        /\ Verifies attestation opts akPubKey quote state)
    \/ (exists lastErr', Recorded attestation opts akPubKey quotes lastErr lastErr').
Proof.
  induction quotes as [|q rest IH]; intros lastErr.
  - right. exists lastErr. constructor.
  - destruct (candidate_decides attestation opts akPubKey q) as [[e Hsoft]|[state Hver]].
    + destruct (IH (Some e)) as [(pre & c & post & state & le' & Heq & Hrec & Hver)|[le' Hrec]].
      * left. exists (q :: pre), c, post, state, le'. repeat split.
        -- now rewrite Heq.
        -- econstructor; eassumption.
        -- apply Hver.
        -- apply Hver.
      * right. exists le'. econstructor; eassumption.
    + left. exists [], q, rest, state, lastErr. repeat split; try apply Hver.
      constructor.
Qed.

Lemma verifyQuotes_all_recorded attestation opts akPubKey quotes lastErr lastErr' :
  Recorded attestation opts akPubKey quotes lastErr lastErr' ->
  value (verifyQuotes attestation opts akPubKey quotes lastErr)
  = (None, Some match lastErr' with Some e => e | None => errNoSupportedQuote end)
  /\ verified (trace (verifyQuotes attestation opts akPubKey quotes lastErr)) = quotes.
Proof.
  intros Hrec.
  destruct (verifyQuotes_skip attestation opts akPubKey quotes [] lastErr lastErr' Hrec)
    as [Hv Ht].
  rewrite app_nil_r in Hv, Ht. rewrite Hv, Ht. cbn.
  split; [now destruct lastErr' | destruct lastErr'; apply app_nil_r].
Qed.

Lemma VerifyAttestation_loop_trace attestation opts akPubKey :
  PassesAkChecks attestation opts akPubKey ->
  VerifyAttestation attestation opts
  = (value (verifyQuotes attestation opts akPubKey
              (supportedQuotes (GetQuotes attestation)) None),
     CallDecodePublic (GetAkPub attestation) :: CallKey :: CallGetSigningHashAlg
       :: trace (verifyQuotes attestation opts akPubKey
                   (supportedQuotes (GetQuotes attestation)) None)).
Proof.
  intros (area & alg & Hd & Hk & Ht & Hs & Ha).
  rewrite VerifyAttestation_unfold. cbv zeta. now rewrite Hd, Hk, Ht, Hs, Ha.
Qed.

(** Either the AK passes the checks before the loop, or the run ends there
    with one of their errors and without a look at the quotes. *)
Lemma ak_checks_cases attestation opts :
  (exists akPubKey, PassesAkChecks attestation opts akPubKey)
  \/ (exists e,
         value (VerifyAttestation attestation opts) = (None, Some e)
         /\ isAkCheckError e = true
         /\ examinesQuotes (trace (VerifyAttestation attestation opts)) = false).
Proof.
  rewrite VerifyAttestation_unfold. cbv zeta. unfold PassesAkChecks.
  destruct (DecodePublic _) as [area|err] eqn:Hd;
    [|right; eexists; repeat split].
  destruct (Key area) as [key|err] eqn:Hk; [|right; eexists; repeat split].
  destruct (checkAkTrusted key opts) as [e|] eqn:Ht.
  { right. exists e. repeat split.
    pose proof (checkAkTrusted_Some key opts e Ht) as Hkind.
    destruct e; simpl in *; congruence. }
  destruct (GetSigningHashAlg area) as [alg|err] eqn:Hs;
    [|right; eexists; repeat split].
  destruct (checkHashAlgSupported alg opts) eqn:Ha; [right; eexists; repeat split|].
  left. exists key, area, alg. auto.
Qed.


Lemma PassesAkChecks_unique attestation opts k1 k2 :
  PassesAkChecks attestation opts k1 -> PassesAkChecks attestation opts k2 -> k1 = k2.
Proof.
  intros (a1 & g1 & Hd1 & Hk1 & _) (a2 & g2 & Hd2 & Hk2 & _). congruence.
Qed.

(** *** Acceptance *)


(** *** Rejection by the loop *)

(** X10. When [VerifyAttestation] fails with a quote-level error ("failed
    to verify quote" or "failed to validate the event log"), the AK passed
    its checks, every candidate of the selector was tried in order and
    failed softly, and the error is the one of the least preferred
    candidate. *)
Theorem VerifyAttestation_soft_error_sound attestation opts state e :
  value (VerifyAttestation attestation opts) = (state, Some e) ->
  isSoftError e = true ->
  exists akPubKey pre quote,
    PassesAkChecks attestation opts akPubKey
    /\ supportedQuotes (GetQuotes attestation) = pre ++ [quote]
    /\ AllFailSoftly attestation opts akPubKey pre
    /\ SoftFails attestation opts akPubKey quote e
    /\ verified (trace (VerifyAttestation attestation opts)) = pre ++ [quote].
Proof.
  intros Hrej Hsoft.
  destruct (ak_checks_cases attestation opts) as [[key Hpass]|(e' & He' & Hak & _)].
  - destruct (VerifyAttestation_loop attestation opts key Hpass) as [Hv Ht].
    destruct (candidates_cases attestation opts key
                (supportedQuotes (GetQuotes attestation)) None)
      as [(pre & q & post & st & le' & Hsel & Hrec & Hver)|[le' Hrec]].
    + assert (Hcand : In q (supportedQuotes (GetQuotes attestation)))
        by (rewrite Hsel; apply in_elt).
      pose proof (candidate_supported attestation opts q Hcand) as Halg.
      destruct (verifyQuotes_skip attestation opts key pre (q :: post) None le' Hrec)
        as [Hv' _].
      rewrite Hsel, Hv', (verifyQuotes_pass attestation opts key q st post le' Hver Halg),
        Hrej in Hv.
      discriminate Hv.
    + destruct (verifyQuotes_all_recorded attestation opts key _ None le' Hrec)
        as [Hv' Ht'].
      rewrite Hv', Hrej in Hv. rewrite Ht' in Ht.
      destruct (supportedQuotes (GetQuotes attestation)) as [|c l] eqn:Hsel.
      * inversion Hrec; subst. injection Hv as _ ->. discriminate Hsoft.
      * destruct (@exists_last _ (c :: l)) as (pre & q & Heq); [discriminate|].
        rewrite Heq in Hrec, Ht.
        destruct (Recorded_last attestation opts key pre q None le' Hrec)
          as (e0 & Hq & ->).
        injection Hv as _ ->.
        exists key, pre, q. repeat split; try assumption.
        apply Recorded_AllFailSoftly in Hrec.
        now apply Forall_app in Hrec.
  - rewrite Hrej in He'. injection He' as _ <-.
    destruct e as [m|m a|m inner]; simpl in Hsoft, Hak; try discriminate.
    apply orb_true_iff in Hsoft as [Hm|Hm]; apply String.eqb_eq in Hm; subst m;
      discriminate Hak.
Qed.

(** *** What the loop calls *)

Lemma verifyQuotes_cons attestation opts akPubKey quote rest lastErr :
  verifyQuotes attestation opts akPubKey (quote :: rest) lastErr =
  let cq := CallVerifyQuote quote (Nonce opts) in
  let cr := CallParseAndReplayEventLog (GetEventLog attestation) (GetPcrs quote) in
  match VerifyQuote quote akPubKey (Nonce opts) with
  | Some err =>
      let r := verifyQuotes attestation opts akPubKey rest
                 (Some (Wrapf "failed to verify quote: " err)) in
      (value r, cq :: trace r)
  | None =>
      match ParseAndReplayEventLog (GetEventLog attestation) (GetPcrs quote) with
      | (_, Some err) =>
          let r := verifyQuotes attestation opts akPubKey rest
                     (Some (Wrapf "failed to validate the event log: " err)) in
          (value r, cq :: cr :: trace r)
      | (state, None) =>
          match checkHashAlgSupported (pcrBankAlg quote) opts with
          | Some err => ((None, Some (Wrapf "when verifying PCRs: " err)), [cq; cr])
          | None => ((state, None), [cq; cr])
          end
      end
  end.
Proof.
  cbn [verifyQuotes]. rewrite bind_call.
  destruct (VerifyQuote quote akPubKey (Nonce opts)); [reflexivity|].
  rewrite bind_call.
  destruct (ParseAndReplayEventLog _ _) as [st [err|]]; [reflexivity|].
  unfold pcrBankAlg. destruct (checkHashAlgSupported _ opts); reflexivity.
Qed.

(** The loop calls the verifier on its candidates with the caller's nonce,
    and the replay only on the bank of a candidate that just verified. *)
Lemma verifyQuotes_calls attestation opts akPubKey quotes :
  forall lastErr c,
    In c (trace (verifyQuotes attestation opts akPubKey quotes lastErr)) ->
    (exists quote, In quote quotes /\ c = CallVerifyQuote quote (Nonce opts))
    \/ (exists quote,
           In quote quotes
           /\ VerifyQuote quote akPubKey (Nonce opts) = None
           /\ c = CallParseAndReplayEventLog (GetEventLog attestation) (GetPcrs quote)).
Proof.
  induction quotes as [|q rest IH]; intros lastErr c.
  - cbn. destruct lastErr; intros [].
  - assert (Hrest : forall le,
               In c (trace (verifyQuotes attestation opts akPubKey rest le)) ->
               (exists quote, In quote (q :: rest) /\ c = CallVerifyQuote quote (Nonce opts))
               \/ (exists quote,
                      In quote (q :: rest)
                      /\ VerifyQuote quote akPubKey (Nonce opts) = None
                      /\ c = CallParseAndReplayEventLog
                               (GetEventLog attestation) (GetPcrs quote))).
    { intros le Hin.
      destruct (IH le c Hin) as [(x & Hx & Hc)|(x & Hx & Hq & Hc)];
        [left | right]; exists x; simpl; auto. }
    rewrite verifyQuotes_cons. cbv zeta.
    destruct (VerifyQuote q akPubKey (Nonce opts)) as [err|] eqn:Hq.
    + intros [<-|Hin]; [left; exists q; simpl; auto | eapply Hrest; exact Hin].
    + destruct (ParseAndReplayEventLog _ _) as [st [err|]].
      * intros [<-|[<-|Hin]];
          [left; exists q; simpl; auto | right; exists q; simpl; auto
          | eapply Hrest; exact Hin].
      * destruct (checkHashAlgSupported _ opts);
          (intros [<-|[<-|[]]];
           [left; exists q; simpl; auto | right; exists q; simpl; auto]).
Qed.

Lemma verifyQuotes_replay_le attestation opts akPubKey quotes :
  forall lastErr,
    (List.length (replayed (trace (verifyQuotes attestation opts akPubKey quotes lastErr)))
     <= List.length (verified (trace (verifyQuotes attestation opts akPubKey quotes lastErr))))%nat.
Proof.
  induction quotes as [|q rest IH]; intros lastErr.
  - cbn. destruct lastErr; apply Nat.le_refl.
  - rewrite verifyQuotes_cons. cbv zeta.
    destruct (VerifyQuote q akPubKey (Nonce opts)) as [err|].
    + specialize (IH (Some (Wrapf "failed to verify quote: " err))).
      unfold replayed, verified in *.
      cbn [trace snd flat_map app List.length] in *. lia.
    + destruct (ParseAndReplayEventLog _ _) as [st [err|]].
      * specialize (IH (Some (Wrapf "failed to validate the event log: " err))).
        unfold replayed, verified in *.
      cbn [trace snd flat_map app List.length] in *. lia.
      * destruct (checkHashAlgSupported _ opts); cbn; apply Nat.le_refl.
Qed.

Lemma examinesQuotes_In (t : list Call) (c : Call) :
  examinesQuotes t = false -> In c t ->
  match c with
  | CallVerifyQuote _ _ | CallParseAndReplayEventLog _ _ => False
  | _ => True
  end.
Proof.
  intros Hex Hin. unfold examinesQuotes in Hex.
  destruct c; try exact I;
    (assert (Htrue : existsb
               (fun c => match c with
                         | CallVerifyQuote _ _ | CallParseAndReplayEventLog _ _ => true
                         | _ => false
                         end) t = true)
      by (apply existsb_exists; eexists; split; [exact Hin | reflexivity]);
     congruence).
Qed.

(** X11. One run hands at most three quotes to the Single-Quote Verifier,
    however many quotes the attestation carries, and replays the log at
    most once per quote it verified. *)
Theorem VerifyAttestation_bounded_work attestation opts :
  (List.length (verified (trace (VerifyAttestation attestation opts))) <= 3)%nat
  /\ (List.length (replayed (trace (VerifyAttestation attestation opts)))
      <= List.length (verified (trace (VerifyAttestation attestation opts))))%nat.
Proof.
  destruct (ak_checks_cases attestation opts) as [[key Hpass]|(e & _ & _ & Hex)].
  - rewrite (VerifyAttestation_loop_trace attestation opts key Hpass).
    set (r := verifyQuotes attestation opts key (supportedQuotes (GetQuotes attestation)) None).
    change (verified (trace (value r, CallDecodePublic (GetAkPub attestation)
                                        :: CallKey :: CallGetSigningHashAlg :: trace r)))
      with (verified (trace r)).
    change (replayed (trace (value r, CallDecodePublic (GetAkPub attestation)
                                        :: CallKey :: CallGetSigningHashAlg :: trace r)))
      with (replayed (trace r)).
    split; [|apply verifyQuotes_replay_le].
    destruct (verifyQuotes_verified_prefix attestation opts key
                (supportedQuotes (GetQuotes attestation)) None) as [post Hpost].
    fold r in Hpost.
    pose proof (supportedQuotes_at_most_three (GetQuotes attestation)) as Hlen.
    rewrite Hpost, length_app in Hlen. lia.
  - apply examinesQuotes_false in Hex as [-> ->]. simpl. lia.
Qed.

(** X12. The Single-Quote Verifier is only called on candidates of the
    selector and with [opts.Nonce]; the log replayed is the attestation's
    event log, and it is replayed only against the PCR bank of a quote of
    the attestation that passed the Single-Quote Verifier under the key
    that passed the AK checks. *)
Theorem VerifyAttestation_calls attestation opts :
  (forall quote nonce,
      In (CallVerifyQuote quote nonce) (trace (VerifyAttestation attestation opts)) ->
      nonce = Nonce opts /\ In quote (supportedQuotes (GetQuotes attestation)))
  /\ (forall log pcrs,
         In (CallParseAndReplayEventLog log pcrs) (trace (VerifyAttestation attestation opts)) ->
         log = GetEventLog attestation
         /\ exists akPubKey quote,
              PassesAkChecks attestation opts akPubKey
              /\ In quote (GetQuotes attestation)
              /\ In (pcrBankAlg quote) supportedHashAlgs
              /\ pcrs = GetPcrs quote
              /\ VerifyQuote quote akPubKey (Nonce opts) = None).
Proof.
  destruct (ak_checks_cases attestation opts) as [[key Hpass]|(e & _ & _ & Hex)].
  - rewrite (VerifyAttestation_loop_trace attestation opts key Hpass).
    unfold trace at 1 3. cbn [snd]. split.
    + intros quote nonce [Hc|[Hc|[Hc|Hin]]]; try discriminate Hc.
      apply verifyQuotes_calls in Hin
        as [(x & Hx & [= -> ->])|(x & _ & _ & Hc)]; [auto | discriminate Hc].
    + intros log pcrs [Hc|[Hc|[Hc|Hin]]]; try discriminate Hc.
      apply verifyQuotes_calls in Hin
        as [(x & _ & Hc)|(x & Hx & Hq & [= -> ->])]; [discriminate Hc|].
      split; [reflexivity|]. exists key, x.
      apply supportedQuotes_In in Hx as [Hin Hpol]. auto.
  - split; intros a b Hin; destruct (examinesQuotes_In _ _ Hex Hin).
Qed.

(** *** Quotes the selector drops *)

(** X13. An attestation none of whose quotes has a bank algorithm of the
    policy (no quotes at all, a nil attestation, only nil quotes, only
    SHA-1 banks) is never accepted and none of its quotes is examined;
    when its AK passes the checks the error is "attestation does not
    contain a supported quote". *)
Theorem VerifyAttestation_no_policy_quote attestation opts :
  (forall quote, In quote (GetQuotes attestation) ->
                 ~ In (pcrBankAlg quote) supportedHashAlgs) ->
  exists e,
    value (VerifyAttestation attestation opts) = (None, Some e)
    /\ examinesQuotes (trace (VerifyAttestation attestation opts)) = false
    /\ ((exists akPubKey, PassesAkChecks attestation opts akPubKey) ->
        e = errNoSupportedQuote).
Proof.
  intros Hnone. apply supportedQuotes_nil_iff in Hnone.
  destruct (ak_checks_cases attestation opts) as [[key Hpass]|(e & He & Hak & Hex)].
  - exists errNoSupportedQuote.
    rewrite (VerifyAttestation_loop_trace attestation opts key Hpass), Hnone.
    repeat split.
  - exists e. repeat split; try assumption.
    intros [key Hpass].
    rewrite (VerifyAttestation_loop_trace attestation opts key Hpass), Hnone in He.
    cbn in He. injection He as <-. reflexivity.
Qed.

Lemma verifyQuotes_eventLog a1 a2 opts akPubKey quotes :
  GetEventLog a1 = GetEventLog a2 ->
  forall lastErr,
    verifyQuotes a1 opts akPubKey quotes lastErr
    = verifyQuotes a2 opts akPubKey quotes lastErr.
Proof.
  intros Hlog. induction quotes as [|q rest IH]; intros lastErr; [reflexivity|].
  rewrite !verifyQuotes_cons. cbv zeta. rewrite Hlog.
  destruct (VerifyQuote q akPubKey (Nonce opts)); [now rewrite IH|].
  destruct (ParseAndReplayEventLog _ _) as [st [err|]]; [now rewrite IH|].
  reflexivity.
Qed.

(** X14. Quotes that the selector does not pick have no influence: two
    attestations with the same AK public area, the same event log and the
    same selection give the same outcome and make the same calls. *)
Theorem VerifyAttestation_unselected_irrelevant a1 a2 opts :
  GetAkPub a1 = GetAkPub a2 ->
  GetEventLog a1 = GetEventLog a2 ->
  supportedQuotes (GetQuotes a1) = supportedQuotes (GetQuotes a2) ->
  VerifyAttestation a1 opts = VerifyAttestation a2 opts.
Proof.
  intros Hak Hlog Hsel.
  rewrite !VerifyAttestation_unfold. cbv zeta. rewrite Hak, Hsel.
  destruct (DecodePublic _) as [area|]; [|reflexivity].
  destruct (Key area) as [key|]; [|reflexivity].
  destruct (checkAkTrusted key opts); [reflexivity|].
  destruct (GetSigningHashAlg area) as [alg|]; [|reflexivity].
  destruct (checkHashAlgSupported alg opts); [reflexivity|].
  now rewrite (verifyQuotes_eventLog a1 a2 opts key _ Hlog).
Qed.

End OrchestratorAnalysis.

Section OrchestratorOptions.
Context `{Capabilities}.

Lemma verifyQuotes_nonce attestation opts opts' akPubKey quotes :
  Nonce opts = Nonce opts' ->
  forall lastErr,
    verifyQuotes attestation opts akPubKey quotes lastErr
    = verifyQuotes attestation opts' akPubKey quotes lastErr.
Proof.
  intros Hn. induction quotes as [|q rest IH]; intros lastErr; [reflexivity|].
  rewrite !verifyQuotes_cons. cbv zeta. rewrite <- Hn.
  destruct (VerifyQuote q akPubKey (Nonce opts)); [now rewrite IH|].
  destruct (ParseAndReplayEventLog _ _) as [st [err|]]; [now rewrite IH|].
  reflexivity.
Qed.

(** X15. Enlarging the trust set never breaks an attestation that
    verifies: with the same nonce and more trusted keys, an accepted
    attestation is accepted again, with the same state and the same calls. *)
Theorem VerifyAttestation_trust_set_monotone attestation opts opts' state :
  Nonce opts = Nonce opts' ->
  (forall k, In k (TrustedAKs opts) -> In k (TrustedAKs opts')) ->
  value (VerifyAttestation attestation opts) = (state, None) ->
  VerifyAttestation attestation opts' = VerifyAttestation attestation opts.
Proof.
  intros Hn Hincl. rewrite !VerifyAttestation_unfold. cbv zeta.
  destruct (DecodePublic _) as [area|]; [|discriminate].
  destruct (Key area) as [key|]; [|discriminate].
  destruct (checkAkTrusted key opts) eqn:Ht; [discriminate|].
  apply checkAkTrusted_None in Ht as (t & Hin & Heq).
  apply pubKeysEqual_true in Heq as [<- Hfam].
  rewrite (checkAkTrusted_listed key opts' (Hincl _ Hin) Hfam).
  destruct (GetSigningHashAlg area) as [alg|]; [|discriminate].
  change (checkHashAlgSupported alg opts') with (checkHashAlgSupported alg opts).
  destruct (checkHashAlgSupported alg opts); [discriminate|].
  intros _. now rewrite (verifyQuotes_nonce attestation opts opts' key _ Hn).
Qed.

End OrchestratorOptions.

(* ------------------------------------------------------------------ *)
(** ** The further properties on the sample instance *)


Lemma VerifyAttestation_soft_error_sound_witness :
  let attestation :=
    Mock.attestation Mock.akSHA256 [Mock.badLogQuote 12; Mock.badSigQuote 13] in
  let opts := Mock.opts [Mock.theKey] in
  let e := Wrapf "failed to validate the event log: " (Errorf "PCR replay mismatch") in
  exists akPubKey pre quote,
    @PassesAkChecks Mock.caps attestation opts akPubKey
    /\ supportedQuotes (GetQuotes attestation) = pre ++ [quote]
    /\ @AllFailSoftly Mock.caps attestation opts akPubKey pre
    /\ @SoftFails Mock.caps attestation opts akPubKey quote e
    /\ verified (trace (@VerifyAttestation Mock.caps attestation opts)) = pre ++ [quote].
Proof.
  intros attestation opts e.
  apply (@VerifyAttestation_soft_error_sound Mock.caps attestation opts None e).
  - reflexivity.
  - reflexivity.
Defined.

Lemma VerifyAttestation_no_policy_quote_witness :
  let attestation := Mock.attestation Mock.akSHA256 [Mock.goodQuote 4; None] in
  let opts := Mock.opts [Mock.theKey] in
  exists e,
    value (@VerifyAttestation Mock.caps attestation opts) = (None, Some e)
    /\ examinesQuotes (trace (@VerifyAttestation Mock.caps attestation opts)) = false
    /\ ((exists akPubKey, @PassesAkChecks Mock.caps attestation opts akPubKey) ->
        e = errNoSupportedQuote).
Proof.
  intros attestation opts.
  apply (@VerifyAttestation_no_policy_quote Mock.caps attestation opts).
  intros quote [<-|[<-|[]]]; vm_compute; intuition discriminate.
Defined.

Lemma VerifyAttestation_unselected_irrelevant_witness :
  let opts := Mock.opts [Mock.theKey] in
  @VerifyAttestation Mock.caps
    (Mock.attestation Mock.akSHA256
       [Mock.goodQuote 11; Mock.goodQuote 4; None; Mock.badSigQuote 11]) opts
  = @VerifyAttestation Mock.caps (Mock.attestation Mock.akSHA256 [Mock.goodQuote 11]) opts.
Proof.
  intros opts.
  apply (@VerifyAttestation_unselected_irrelevant Mock.caps); reflexivity.
Defined.

Lemma VerifyAttestation_trust_set_monotone_witness :
  let attestation := Mock.attestation Mock.akSHA256 [Mock.goodQuote 11] in
  @VerifyAttestation Mock.caps attestation (Mock.opts [Mock.otherKey; Mock.theKey])
  = @VerifyAttestation Mock.caps attestation (Mock.opts [Mock.theKey]).
Proof.
  intros attestation.
  apply (@VerifyAttestation_trust_set_monotone Mock.caps attestation
           (Mock.opts [Mock.theKey]) (Mock.opts [Mock.otherKey; Mock.theKey])
           (Some Mock.log)).
  - reflexivity.
  - intros k Hin. now right.
  - reflexivity.
Defined.
